(** * ZenodoDataDownload: resumable transfer and multi-pass orchestration

    A shallow embedding of [download_file] and of the pass loop of [main]
    from [ZenodoDataDownload.py].  The file system is a finite map from
    paths to file contents, the network is an oracle indexed by the number
    of requests issued so far, and everything the program does to the
    outside (requests, file operations, progress bar, sleeps, prints) is
    appended to an event log carried in the state.

    Conventions of the model:
    - [tqdm] is the real package (the [try: from tqdm import tqdm] branch);
      creating the bar and updating it are logged, closing it is not;
    - strings are byte strings, [lower] acts on the ASCII letters;
    - a failure of the body stream is raised between two chunks: the chunks
      that arrived before it have been written and flushed;
    - [os.path.getsize] and [os.remove] themselves do not fail;
    - line numbers refer to [ZenodoDataDownload.py]. *)

From Stdlib Require Import ZArith Lia Bool Ascii String List DecimalString.
From Stdlib.Strings Require Import Byte.
From stdpp Require Import base option list gmap strings.
Import ListNotations.

Open Scope string_scope.
Open Scope Z_scope.

(** ** Python values used by the program *)

Module Py.

(** Truthiness of an optional integer ([None] and [0] are falsy). *)
Definition truthy_int (o : option Z) : bool :=
  match o with
  | Some n => negb (n =? 0)
  | None => false
  end.

(** Truthiness of an optional string ([None] and [''] are falsy). *)
Definition truthy_str (o : option string) : bool :=
  match o with
  | Some EmptyString => false
  | Some _ => true
  | None => false
  end.

(** [a or b] on optional strings. *)
Definition or_str (a b : option string) : option string :=
  if truthy_str a then a else b.

(** [str.lower()] on one character (ASCII range). *)
Definition lower_ascii (c : ascii) : ascii :=
  let n := nat_of_ascii c in
  if (Nat.leb 65 n && Nat.leb n 90)%bool then ascii_of_nat (n + 32)%nat else c.

(** [s.lower()] *)
Fixpoint lower (s : string) : string :=
  match s with
  | EmptyString => EmptyString
  | String c s' => String (lower_ascii c) (lower s')
  end.

(** [needle in hay] for strings. *)
Fixpoint contains (needle hay : string) : bool :=
  if String.prefix needle hay then true
  else match hay with
       | EmptyString => false
       | String _ hay' => contains needle hay'
       end.

(** [str(n)] for an integer, as used by the f-string of the Range header. *)
Definition str_int (n : Z) : string := NilZero.string_of_int (Z.to_int n).

(** [os.path.join(a, b)] (posixpath). *)
Definition ends_with_slash (a : string) : bool :=
  match String.get (String.length a - 1)%nat a with
  | Some c => Ascii.eqb c "/"
  | None => false
  end.

Definition os_path_join (a b : string) : string :=
  if String.prefix "/" b then b
  else if (String.eqb a EmptyString || ends_with_slash a)%bool then a ++ b
  else a ++ "/" ++ b.

End Py.

(** ** The outside world *)

Inductive open_mode := AB | WB.

(** The [headers] dict of the request. *)
Abbreviation headers_t := (gmap string string).

Record request := Request { req_url : string; req_headers : headers_t }.

(** The [content-length] header of a response as [int(...)] sees it. *)
Inductive cl_header :=
| CLAbsent
| CLInt (n : Z)
| CLMalformed.

(** How the body stream of a response ends. *)
Inductive stream_end := EndOk | EndNetErr | EndIoErr.

Record response := Response {
  status_code : Z;
  content_length : cl_header;
  body : list (list byte);        (* what [iter_content] yields, in order *)
  body_end : stream_end
}.

Inductive reply :=
| ConnError                       (* [requests.get] itself raises *)
| Reply (r : response).

(** Exceptions caught by [except Exception] in [download_file]. *)
Inductive exn :=
| ConnectionError
| HTTPError (status : Z)
| ValueError
| OpenError
| StreamError
| WriteError
| SizeMismatch.

(** The attempt outcomes distinguished by the specification. *)
Inductive failure_kind := NetworkError | IoError | SizeError.

Definition classify (e : exn) : failure_kind :=
  match e with
  | ConnectionError | HTTPError _ | ValueError | StreamError => NetworkError
  | OpenError | WriteError => IoError
  | SizeMismatch => SizeError
  end.

Inductive message :=
| MsgSkipComplete (filename : string)
| MsgOversize (filename : string)
| MsgResume (pos : Z) (filename : string)
| MsgRestart
| MsgComplete (filename : string)
| MsgError (retry_count max_retries : nat) (e : exn)
| MsgRetrying
| MsgGiveUp (filename : string)
| MsgStartPass (global_pass : nat)
| MsgUnparseable
| MsgPreparing (filename : string) (size : option Z)
| MsgFailedWillRetry (filename : string)
| MsgNoMatching
| MsgAllDownloaded (count : nat)
| MsgPassFailures (global_pass : nat)
| MsgAllTasksCompleted.

Inductive event :=
| EvRequest (rq : request)
| EvRemove (path : string)
| EvOpen (path : string) (mode : open_mode)
| EvWrite (path : string) (chunk : list byte)
| EvProgress (total initial : Z)
| EvUpdate (n : Z)
| EvSleep (seconds : Z)
| EvPrint (m : message).

Record world := World {
  fs : gmap string (list byte);
  nreq : nat;
  log : list event
}.

Definition emit (e : event) (w : world) : world :=
  World (fs w) (nreq w) (log w ++ [e])%list.

Definition print (m : message) (w : world) : world := emit (EvPrint m) w.

Definition set_fs (f : gmap string (list byte)) (w : world) : world :=
  World f (nreq w) (log w).

Definition os_path_exists (path : string) (w : world) : bool :=
  bool_decide (is_Some (fs w !! path)).

Definition size_of (content : list byte) : Z := Z.of_nat (length content).

(** [os.path.getsize] on a path that exists. *)
Definition os_path_getsize (path : string) (w : world) : Z :=
  match fs w !! path with
  | Some content => size_of content
  | None => 0
  end.

Definition os_remove (path : string) (w : world) : world :=
  emit (EvRemove path) (set_fs (delete path (fs w)) w).

(** [open(path, mode)]: ['wb'] truncates, ['ab'] keeps what is there; both
    create a missing file. *)
Definition open_file (path : string) (mode : open_mode) (w : world) : world :=
  let content :=
    match mode with
    | WB => []
    | AB => default [] (fs w !! path)
    end in
  emit (EvOpen path mode) (set_fs (<[path := content]> (fs w)) w).

(** [f.write(chunk)] on the open file. *)
Definition write_chunk (path : string) (chunk : list byte) (w : world) : world :=
  emit (EvWrite path chunk)
       (set_fs (<[path := (default [] (fs w !! path) ++ chunk)%list]> (fs w)) w).

(** ** [download_file] *)

(** The variables of [download_file] that live across loop iterations. *)
Record loop_state := LoopState {
  initial_pos : Z;
  mode : open_mode;
  headers : headers_t
}.

(** What lines 96-108 settle before the progress bar and the file are
    opened: the total for the progress bar, the position it starts from,
    the mode the file is opened in, whether the restart message is printed. *)
Record plan := Plan {
  total_size : Z;
  plan_pos : Z;
  plan_mode : open_mode;
  restarted : bool
}.

(** [f'bytes={initial_pos}-'] *)
Definition range_value (pos : Z) : string := "bytes=" ++ Py.str_int pos ++ "-".

(** [int(r.headers.get('content-length', 0))]; [None] is the [ValueError]. *)
Definition int_content_length (h : cl_header) : option Z :=
  match h with
  | CLAbsent => Some 0
  | CLInt n => Some n
  | CLMalformed => None
  end.

(** [r.raise_for_status()] raises on 4xx and 5xx. *)
Definition raises_for_status (status : Z) : bool :=
  ((400 <=? status) && (status <? 600))%bool.

(** [initial_pos == expected_size] and [initial_pos > expected_size],
    evaluated only behind [expected_size and ...]. *)
Definition eq_expected (pos : Z) (expected_size : option Z) : bool :=
  (Py.truthy_int expected_size && (pos =? default 0 expected_size))%bool.

Definition gt_expected (pos : Z) (expected_size : option Z) : bool :=
  (Py.truthy_int expected_size && (pos >? default 0 expected_size))%bool.

Definition negotiate (ls : loop_state) (r : response) : option plan :=
  match int_content_length (content_length r) with
  | None => None
  | Some total =>
      if initial_pos ls >? 0 then
        if status_code r =? 206 then
          Some (Plan (total + initial_pos ls) (initial_pos ls) (mode ls) false)
        else if status_code r =? 200 then
          Some (Plan total 0 WB true)
        else Some (Plan total (initial_pos ls) (mode ls) false)
      else Some (Plan total (initial_pos ls) (mode ls) false)
  end.

(** The [for chunk in r.iter_content(...)] loop over the chunks that
    arrive. *)
Fixpoint stream_chunks (path : string) (chunks : list (list byte)) (w : world) : world :=
  match chunks with
  | [] => w
  | chunk :: rest =>
      let w1 :=
        match chunk with
        | [] => w
        | _ => emit (EvUpdate (size_of chunk)) (write_chunk path chunk w)
        end in
      stream_chunks path rest w1
  end.

Definition end_exn (e : stream_end) : option exn :=
  match e with
  | EndOk => None
  | EndNetErr => Some StreamError
  | EndIoErr => Some WriteError
  end.

(** [requests.get(url, headers=headers, ...)] goes out. *)
Definition send (rq : request) (w : world) : world :=
  World (fs w) (S (nreq w)) (log w ++ [EvRequest rq])%list.

(** The restart message of line 105 and the [tqdm(...)] of line 111. *)
Definition announce (p : plan) (w : world) : world :=
  emit (EvProgress (total_size p) (plan_pos p))
       (if restarted p then print MsgRestart w else w).

(** Lines 112-116: the file is opened and the chunks are written to it. *)
Definition receive (path : string) (p : plan) (r : response) (w : world) : world :=
  stream_chunks path (body r) (open_file path (plan_mode p) w).

(** The test of line 119. *)
Definition size_mismatch (path : string) (expected_size : option Z) (w : world) : bool :=
  (Py.truthy_int expected_size
   && negb (os_path_getsize path w =? default 0 expected_size))%bool.

Section Downloader.

(** The network: the reply to the [n]-th request of the run. *)
Variable server : nat -> request -> reply.
(** The disk: whether [open] fails during the [n]-th request of the run. *)
Variable open_fails : nat -> bool.

Section OneFile.

Variables (url filename output_dir : string).
Variable expected_size : option Z.
Variable max_retries : nat.

Definition filepath : string := Py.os_path_join output_dir filename.

(** The body of [try], lines 92-123.  [None] is [return True], [Some e]
    an exception; the loop state comes back as the body leaves it. *)
Definition attempt (ls : loop_state) (w : world)
  : option exn * loop_state * world :=
  let rq := Request url (headers ls) in
  let n := nreq w in
  let w := send rq w in
  match server n rq with
  | ConnError => (Some ConnectionError, ls, w)
  | Reply r =>
      if raises_for_status (status_code r) then
        (Some (HTTPError (status_code r)), ls, w)
      else
        match negotiate ls r with
        | None => (Some ValueError, ls, w)
        | Some p =>
            let ls := LoopState (plan_pos p) (plan_mode p) (headers ls) in
            let w := announce p w in
            if open_fails n then (Some OpenError, ls, w)
            else
              let w := receive filepath p r w in
              match end_exn (body_end r) with
              | Some e => (Some e, ls, w)
              | None =>
                  if size_mismatch filepath expected_size w
                  then (Some SizeMismatch, ls, w)
                  else (None, ls, print (MsgComplete filename) w)
              end
        end
  end.

(** The [except Exception] handler, lines 125-139; [retry_count] is
    the counter after its increment. *)
Definition on_error (retry_count : nat) (e : exn) (ls : loop_state) (w : world)
  : loop_state * world :=
  let w := print (MsgError retry_count max_retries e) w in
  let w := print MsgRetrying w in
  let w := emit (EvSleep 5) w in
  if os_path_exists filepath w then
    let pos := os_path_getsize filepath w in
    (LoopState pos AB (<["Range" := range_value pos]> (headers ls)), w)
  else
    (LoopState 0 WB ∅, w).

(** [while retry_count < max_retries], by recursion on
    [max_retries - retry_count]. *)
Fixpoint retry_loop (remaining : nat) (ls : loop_state) (w : world) : bool * world :=
  match remaining with
  | O => (false, print (MsgGiveUp filename) w)
  | S remaining' =>
      match attempt ls w with
      | (None, _, w1) => (true, w1)
      | (Some e, ls1, w1) =>
          let '(ls2, w2) := on_error (max_retries - remaining') e ls1 w1 in
          retry_loop remaining' ls2 w2
      end
  end.

(** Lines 84-87. *)
Definition first_state (pos : Z) : loop_state :=
  LoopState pos
            (if pos >? 0 then AB else WB)
            (if pos >? 0 then {["Range" := range_value pos]} else ∅).

(** Lines 71-82: [inl] is the early [return True], [inr] the position
    the first attempt starts from. *)
Definition check_local (w : world) : world + (Z * world) :=
  if os_path_exists filepath w then
    let pos := os_path_getsize filepath w in
    if eq_expected pos expected_size then
      inl (print (MsgSkipComplete filename) w)
    else if gt_expected pos expected_size then
      inr (0, os_remove filepath (print (MsgOversize filename) w))
    else
      inr (pos, print (MsgResume pos filename) w)
  else inr (0, w).

Definition download_file (w : world) : bool * world :=
  match check_local w with
  | inl w1 => (true, w1)
  | inr (pos, w1) => retry_loop max_retries (first_state pos) w1
  end.

(** The states in which the attempts of the loop are made, in order. *)
Fixpoint attempt_states (remaining : nat) (ls : loop_state) (w : world)
  : list (loop_state * world) :=
  match remaining with
  | O => []
  | S remaining' =>
      (ls, w) ::
      match attempt ls w with
      | (None, _, _) => []
      | (Some e, ls1, w1) =>
          let '(ls2, w2) := on_error (max_retries - remaining') e ls1 w1 in
          attempt_states remaining' ls2 w2
      end
  end.

Definition download_attempts (w : world) : list (loop_state * world) :=
  match check_local w with
  | inl _ => []
  | inr (pos, w1) => attempt_states max_retries (first_state pos) w1
  end.

End OneFile.

End Downloader.

(** ** The pass loop of [main] *)

(** One element of [metadata['files']], as the loop body reads it. *)
Record file_info := FileInfo {
  fi_key : option string;
  fi_filename : option string;
  fi_links_self : option string;
  fi_links_content : option string;
  fi_size : option Z
}.

(** The loop variables of one pass. *)
Record pass_state := PassState {
  all_downloaded : bool;
  files_to_download_count : nat
}.

Inductive run_result :=
| NoMatchingFiles
| AllSucceeded (count : nat).

Definition default_max_retries : nat := 5.

(** [filter_keyword and filter_keyword.lower() not in filename.lower()] *)
Definition filtered_out (filter_keyword filename : string) : bool :=
  (Py.truthy_str (Some filter_keyword)
   && negb (Py.contains (Py.lower filter_keyword) (Py.lower filename)))%bool.

Definition entry_name (fi : file_info) : option string :=
  Py.or_str (fi_key fi) (fi_filename fi).

Definition entry_url (fi : file_info) : option string :=
  Py.or_str (fi_links_self fi) (fi_links_content fi).

Definition unparseable (fi : file_info) : bool :=
  (negb (Py.truthy_str (entry_name fi)) || negb (Py.truthy_str (entry_url fi)))%bool.

Section Orchestrator.

Variable server : nat -> request -> reply.
Variable open_fails : nat -> bool.
Variable filter_keyword : string.
Variable output_dir : string.
Variable files : list file_info.

(** The quick check of lines 204-209. *)
Definition already_complete (filename : string) (size : option Z) (w : world) : bool :=
  let path := filepath filename output_dir in
  (os_path_exists path w && eq_expected (os_path_getsize path w) size)%bool.

(** The body of [for file_info in files], lines 189-215. *)
Definition pass_body (fi : file_info) (st : pass_state) (w : world)
  : pass_state * world :=
  let filename := default EmptyString (entry_name fi) in
  let download_url := default EmptyString (entry_url fi) in
  let size := fi_size fi in
  if unparseable fi then (st, print MsgUnparseable w)
  else if filtered_out filter_keyword filename then (st, w)
  else
    let st := PassState (all_downloaded st) (S (files_to_download_count st)) in
    if already_complete filename size w then (st, w)
    else
      let w := print (MsgPreparing filename size) w in
      let '(success, w) :=
        download_file server open_fails download_url filename output_dir
                      size default_max_retries w in
      if success then (st, w)
      else (PassState false (files_to_download_count st),
            print (MsgFailedWillRetry filename) w).

Fixpoint pass_loop (l : list file_info) (st : pass_state) (w : world)
  : pass_state * world :=
  match l with
  | [] => (st, w)
  | fi :: rest =>
      let '(st1, w1) := pass_body fi st w in
      pass_loop rest st1 w1
  end.

(** One iteration of [while True], up to the end of the [for] loop. *)
Definition run_pass (global_pass : nat) (w : world) : pass_state * world :=
  pass_loop files (PassState true 0) (print (MsgStartPass global_pass) w).

(** [while True], lines 177-227, cut off after [fuel] passes. *)
Fixpoint main_loop (fuel : nat) (global_pass : nat) (w : world)
  : option run_result * world :=
  match fuel with
  | O => (None, w)
  | S fuel' =>
      let '(st, w1) := run_pass global_pass w in
      if Nat.eqb (files_to_download_count st) 0 then
        (Some NoMatchingFiles, print MsgNoMatching w1)
      else if all_downloaded st then
        (Some (AllSucceeded (files_to_download_count st)),
         print (MsgAllDownloaded (files_to_download_count st)) w1)
      else
        let w2 := emit (EvSleep 10) (print (MsgPassFailures global_pass) w1) in
        main_loop fuel' (S global_pass) w2
  end.

(** The loop as [main] enters it, with [global_pass = 1], and the closing
    message once it is left. *)
Definition main_passes (fuel : nat) (w : world) : option run_result * world :=
  match main_loop fuel 1 w with
  | (Some res, w1) => (Some res, print MsgAllTasksCompleted w1)
  | (None, w1) => (None, w1)
  end.

End Orchestrator.

(** ** [get_record_id] and the names [main] builds

    Text is ASCII: the character classes below are those of [str.isspace],
    [str.isdigit], [str.isalpha] and of the regular expression [\d] on the
    code points below 128. *)

Definition is_digit (c : ascii) : bool :=
  let n := nat_of_ascii c in (Nat.leb 48 n && Nat.leb n 57)%bool.

Definition is_alpha (c : ascii) : bool :=
  let n := nat_of_ascii c in
  ((Nat.leb 65 n && Nat.leb n 90) || (Nat.leb 97 n && Nat.leb n 122))%bool.

Definition is_space (c : ascii) : bool :=
  let n := nat_of_ascii c in
  ((Nat.leb 9 n && Nat.leb n 13) || (Nat.leb 28 n && Nat.leb n 32))%bool.

Definition is_empty (s : string) : bool :=
  match s with
  | EmptyString => true
  | String _ _ => false
  end.

(** [s.lstrip()], [s.rstrip()] and [s.strip()] *)
Fixpoint lstrip (s : string) : string :=
  match s with
  | EmptyString => EmptyString
  | String c s' => if is_space c then lstrip s' else s
  end.

Fixpoint rstrip (s : string) : string :=
  match s with
  | EmptyString => EmptyString
  | String c s' =>
      let r := rstrip s' in
      if (is_space c && is_empty r)%bool then EmptyString else String c r
  end.

Definition strip (s : string) : string := rstrip (lstrip s).

Fixpoint all_digits (s : string) : bool :=
  match s with
  | EmptyString => true
  | String c s' => (is_digit c && all_digits s')%bool
  end.

(** [s.isdigit()]: false on the empty string. *)
Definition isdigit (s : string) : bool := (negb (is_empty s) && all_digits s)%bool.

(** The longest run of digits at the start of [s]: what a greedy [\d+]
    takes. *)
Fixpoint take_digits (s : string) : string :=
  match s with
  | EmptyString => EmptyString
  | String c s' => if is_digit c then String c (take_digits s') else EmptyString
  end.

(** Matching a literal at the start of [s]; the rest of [s] comes back. *)
Fixpoint match_literal (lit s : string) : option string :=
  match lit, s with
  | EmptyString, _ => Some s
  | String _ _, EmptyString => None
  | String a lit', String b s' =>
      if Ascii.eqb a b then match_literal lit' s' else None
  end.

(** The pattern [lit(\d+)] tried at the start of [s]: group 1. *)
Definition match_here (lit s : string) : option string :=
  match match_literal lit s with
  | Some rest =>
      match take_digits rest with
      | EmptyString => None
      | String c d => Some (String c d)
      end
  | None => None
  end.

(** [re.search] with the pattern [lit(\d+)]: group 1 of the leftmost
    match. *)
Fixpoint re_search (lit s : string) : option string :=
  match match_here lit s with
  | Some d => Some d
  | None =>
      match s with
      | EmptyString => None
      | String _ s' => re_search lit s'
      end
  end.

Definition record_pattern : string := "zenodo.org/record/".
Definition records_pattern : string := "zenodo.org/records/".

(** Lines 29-48. *)
Definition get_record_id (input_str : string) : option string :=
  let input_str := strip input_str in
  if isdigit input_str then Some input_str
  else
    match re_search record_pattern input_str with
    | Some id => Some id
    | None =>
        match re_search records_pattern input_str with
        | Some id => Some id
        | None => None
        end
    end.

(** The test of the comprehension of line 164. *)
Definition title_char (c : ascii) : bool :=
  (is_alpha c || is_digit c
   || Ascii.eqb c " " || Ascii.eqb c "-" || Ascii.eqb c "_")%bool.

Fixpoint keep_chars (f : ascii -> bool) (s : string) : string :=
  match s with
  | EmptyString => EmptyString
  | String c s' => if f c then String c (keep_chars f s') else keep_chars f s'
  end.

(** Lines 162-164; [title] is [None] when the metadata has none. *)
Definition safe_title (title : option string) : string :=
  strip (keep_chars title_char (default "Untitled_Dataset" title)).

(** Line 165. *)
Definition dataset_dir (cwd record_id : string) (title : option string) : string :=
  Py.os_path_join cwd ("Zenodo_" ++ record_id ++ "_" ++ safe_title title).

(** Every character of [s] passes the test [f]. *)
Fixpoint all_chars (f : ascii -> bool) (s : string) : bool :=
  match s with
  | EmptyString => true
  | String c s' => (f c && all_chars f s')%bool
  end.

(** Line 160: the filter is the stripped answer to the prompt. *)
Definition filter_of_input (answer : string) : string := strip answer.

(** ** Small worlds and servers for concrete runs *)

Definition empty_world : world := World ∅ 0 [].

Definition world_with (path : string) (content : list byte) : world :=
  World {[path := content]} 0 [].

Definition never_fails : nat -> bool := fun _ => false.

Definition down_server : nat -> request -> reply := fun _ _ => ConnError.

Definition const_server (r : response) : nat -> request -> reply :=
  fun _ _ => Reply r.

(** ** Notions used to state the properties *)

(** The log only grows. *)
Definition extends (w w' : world) : Prop :=
  exists tl, log w' = (log w ++ tl)%list.

(** The loop state agrees with the file on disk: when the file holds
    [K > 0] bytes, the position is [K] and the headers ask for the range
    from [K]. *)
Definition resume_ready (path : string) (ls : loop_state) (w : world) : Prop :=
  forall content,
    fs w !! path = Some content ->
    0 < size_of content ->
    initial_pos ls = size_of content
    /\ headers ls !! "Range" = Some (range_value (size_of content)).

(** An entry that a pass counts in [files_to_download_count]: it has a name
    and a link, and its name passes the filter. *)
Definition counted (filter_keyword : string) (fi : file_info) : bool :=
  (negb (unparseable fi)
   && negb (filtered_out filter_keyword (default EmptyString (entry_name fi))))%bool.

(** The raw filtered set of a pass: the counted entries, before any look
    at the local files. *)
Definition raw_filtered (filter_keyword : string) (files : list file_info)
  : list file_info :=
  List.filter (counted filter_keyword) files.

Section PassNotions.

Variable server : nat -> request -> reply.
Variable open_fails : nat -> bool.
Variable filter_keyword : string.
Variable output_dir : string.

(** The entry clears the [all_downloaded] flag when its turn comes in
    world [w]. *)
Definition entry_fails (fi : file_info) (w : world) : bool :=
  negb (all_downloaded
          (pass_body server open_fails filter_keyword output_dir fi
                     (PassState true 0) w).1).

(** The failure set of a pass over [l] started in world [w]. *)
Fixpoint pass_failures (l : list file_info) (w : world) : list file_info :=
  match l with
  | [] => []
  | fi :: rest =>
      let w1 := (pass_body server open_fails filter_keyword output_dir fi
                           (PassState true 0) w).2 in
      if entry_fails fi w then fi :: pass_failures rest w1
      else pass_failures rest w1
  end.

End PassNotions.

(** The local file of the entry exists, with the size the entry gives when
    that size is known and not zero. *)
Definition entry_on_disk (output_dir : string) (fi : file_info) (w : world) : Prop :=
  exists content,
    fs w !! filepath (default EmptyString (entry_name fi)) output_dir = Some content
    /\ (Py.truthy_int (fi_size fi) = true ->
        size_of content = default 0 (fi_size fi)).

(** Events that concern one of the given URLs or paths only. *)
Definition event_within (urls paths : list string) (ev : event) : Prop :=
  match ev with
  | EvRequest rq => req_url rq ∈ urls
  | EvRemove p | EvOpen p _ | EvWrite p _ => p ∈ paths
  | _ => True
  end.

(** From [w] to [w'] the log grows by events that satisfy [P]. *)
Definition emits (P : event -> Prop) (w w' : world) : Prop :=
  exists tl, log w' = (log w ++ tl)%list /\ Forall P tl.

(** The answer to the filter prompt that downloads everything. *)
Definition no_filter : string := EmptyString.

(** A manifest with one entry of unknown size. *)
Definition lonely_manifest : list file_info :=
  [FileInfo (Some "d.bin") None (Some "http://host/d.bin") None None].

(** *** Concrete scenarios *)

(** A server that honours a range: two more bytes, status 206. *)
Definition resp_206 : response :=
  Response 206 (CLInt 2) [[x01; x02]] EndOk.

(** A server that ignores the range: the whole file of three bytes,
    status 200. *)
Definition resp_200 : response :=
  Response 200 (CLInt 3) [[x0a; x0b; x0c]] EndOk.

(** A stream that breaks after one chunk of two bytes. *)
Definition resp_broken : response :=
  Response 200 (CLInt 4) [[x0a; x0b]] EndNetErr.

(** A resumed stream that breaks after one chunk of two bytes. *)
Definition resp_broken_206 : response :=
  Response 206 (CLInt 4) [[x01; x02]] EndNetErr.

(** One byte of some earlier download of [c.bin]. *)
Definition partial_world : world := world_with "/out/c.bin" [x00].

(** [c.bin], three bytes expected. *)
Definition c_bin : file_info :=
  FileInfo (Some "c.bin") None (Some "http://host/c.bin") None (Some 3).

(** [e.bin], an empty file: expected size 0. *)
Definition e_bin : file_info :=
  FileInfo (Some "e.bin") None (Some "http://host/e.bin") None (Some 0).

(** [d.bin], of unknown size. *)
Definition d_bin : file_info :=
  FileInfo (Some "d.bin") None (Some "http://host/d.bin") None None.

(** [abc.zip], which the filter [foo] leaves out. *)
Definition abc_zip : file_info :=
  FileInfo (Some "abc.zip") None (Some "http://host/abc.zip") None (Some 3).

(** ** Basic facts about the world operations *)

Lemma fs_emit e w : fs (emit e w) = fs w.
Proof. reflexivity. Qed.

Lemma nreq_emit e w : nreq (emit e w) = nreq w.
Proof. reflexivity. Qed.

Lemma fs_print m w : fs (print m w) = fs w.
Proof. reflexivity. Qed.

Lemma exists_true path w content :
  fs w !! path = Some content -> os_path_exists path w = true.
Proof.
  intros H. unfold os_path_exists. apply bool_decide_eq_true. by rewrite H.
Qed.

Lemma exists_false path w :
  fs w !! path = None -> os_path_exists path w = false.
Proof.
  intros H. unfold os_path_exists. apply bool_decide_eq_false.
  rewrite H. by intros [? ?].
Qed.

Lemma exists_inv path w :
  os_path_exists path w = true -> exists content, fs w !! path = Some content.
Proof.
  unfold os_path_exists. intros H. apply bool_decide_eq_true in H.
  destruct H as [c Hc]. by exists c.
Qed.

Lemma exists_false_inv path w :
  os_path_exists path w = false -> fs w !! path = None.
Proof.
  unfold os_path_exists. intros H. apply bool_decide_eq_false in H.
  destruct (fs w !! path) eqn:E; [|done]. destruct H. by eexists.
Qed.

Lemma getsize_some path w content :
  fs w !! path = Some content -> os_path_getsize path w = size_of content.
Proof. intros H. unfold os_path_getsize. by rewrite H. Qed.

Lemma size_of_app (a b : list byte) : size_of (a ++ b)%list = size_of a + size_of b.
Proof. unfold size_of. rewrite length_app. lia. Qed.

Lemma size_of_nonneg (a : list byte) : 0 <= size_of a.
Proof. unfold size_of. lia. Qed.

Lemma open_file_lookup path m w :
  fs (open_file path m w) !! path
  = Some (match m with WB => [] | AB => default [] (fs w !! path) end).
Proof. unfold open_file. simpl. apply lookup_insert_eq. Qed.

Lemma open_file_other path m w q :
  path <> q -> fs (open_file path m w) !! q = fs w !! q.
Proof. intros H. unfold open_file. simpl. by apply lookup_insert_ne. Qed.

Lemma stream_chunks_lookup path chunks : forall w content,
  fs w !! path = Some content ->
  fs (stream_chunks path chunks w) !! path = Some (content ++ concat chunks)%list.
Proof.
  induction chunks as [|c rest IH]; intros w content Hw; simpl.
  - by rewrite app_nil_r.
  - destruct c as [|b c'].
    + by apply IH.
    + rewrite (IH _ (content ++ b :: c')%list).
      * by rewrite <- app_assoc.
      * simpl. rewrite Hw. simpl. apply lookup_insert_eq.
Qed.

Lemma stream_chunks_other path q chunks : forall w,
  path <> q -> fs (stream_chunks path chunks w) !! q = fs w !! q.
Proof.
  induction chunks as [|c rest IH]; intros w Hq; simpl; [done|].
  destruct c as [|b c']; rewrite IH by done; [done|].
  simpl. by apply lookup_insert_ne.
Qed.

Lemma stream_chunks_nreq path chunks : forall w,
  nreq (stream_chunks path chunks w) = nreq w.
Proof.
  induction chunks as [|c rest IH]; intros w; simpl; [done|].
  destruct c; by rewrite IH.
Qed.

Lemma extends_refl w : extends w w.
Proof. exists []. by rewrite app_nil_r. Qed.

Lemma extends_trans w1 w2 w3 : extends w1 w2 -> extends w2 w3 -> extends w1 w3.
Proof.
  intros [t1 H1] [t2 H2]. exists (t1 ++ t2)%list.
  by rewrite H2, H1, app_assoc.
Qed.

Lemma extends_emit e w : extends w (emit e w).
Proof. by exists [e]. Qed.

Lemma open_file_extends path m w : extends w (open_file path m w).
Proof. by exists [EvOpen path m]. Qed.

Lemma announce_extends p w : extends w (announce p w).
Proof.
  unfold announce, extends. destruct (restarted p); simpl;
    rewrite <- ?app_assoc; eauto.
Qed.

Lemma nreq_announce p w : nreq (announce p w) = nreq w.
Proof. unfold announce. by destruct (restarted p). Qed.

Lemma fs_announce p w : fs (announce p w) = fs w.
Proof. unfold announce. by destruct (restarted p). Qed.

Lemma stream_chunks_log path chunks : forall w,
  exists tl, log (stream_chunks path chunks w) = (log w ++ tl)%list.
Proof.
  induction chunks as [|c rest IH]; intros w; simpl.
  - apply (extends_refl w).
  - destruct c as [|b c']; [apply IH|].
    destruct (IH (emit (EvUpdate (size_of (b :: c'))) (write_chunk path (b :: c') w)))
      as [tl Htl].
    rewrite Htl. simpl. rewrite <- !app_assoc. eauto.
Qed.

Lemma receive_extends path p r w : extends w (receive path p r w).
Proof.
  unfold receive. eapply extends_trans; [apply open_file_extends|].
  apply stream_chunks_log.
Qed.

Lemma nreq_receive path p r w : nreq (receive path p r w) = nreq w.
Proof. unfold receive. by rewrite stream_chunks_nreq. Qed.

Lemma receive_opens path p r w :
  exists tl, log (receive path p r w) = (log w ++ EvOpen path (plan_mode p) :: tl)%list.
Proof.
  unfold receive.
  destruct (stream_chunks_log path (body r) (open_file path (plan_mode p) w)) as [tl H].
  exists tl. rewrite H. simpl. by rewrite <- app_assoc.
Qed.

(** After the stream, the file holds what it held when it was opened (nothing,
    in write mode) followed by every chunk that arrived. *)
Lemma receive_lookup path p r w :
  fs (receive path p r w) !! path
  = Some ((match plan_mode p with
           | WB => []
           | AB => default [] (fs w !! path)
           end) ++ concat (body r))%list.
Proof.
  unfold receive. apply stream_chunks_lookup, open_file_lookup.
Qed.

Lemma receive_other path q p r w :
  path <> q -> fs (receive path p r w) !! q = fs w !! q.
Proof.
  intros H. unfold receive.
  rewrite stream_chunks_other by done. by apply open_file_other.
Qed.

(** ** One call of [download_file] *)

Section OneFileFacts.

Variable server : nat -> request -> reply.
Variable open_fails : nat -> bool.
Variables (url filename output_dir : string).
Variable expected_size : option Z.
Variable max_retries : nat.

Local Abbreviation path := (filepath filename output_dir).
Local Abbreviation attempt' := (attempt server open_fails url filename output_dir expected_size).
Local Abbreviation on_error' := (on_error filename output_dir max_retries).
Local Abbreviation retry_loop' :=
  (retry_loop server open_fails url filename output_dir expected_size max_retries).
Local Abbreviation attempt_states' :=
  (attempt_states server open_fails url filename output_dir expected_size max_retries).
Local Abbreviation check_local' := (check_local filename output_dir expected_size).
Local Abbreviation download_file' :=
  (download_file server open_fails url filename output_dir expected_size max_retries).
Local Abbreviation download_attempts' :=
  (download_attempts server open_fails url filename output_dir expected_size max_retries).

Lemma first_state_ready w pos w1 :
  check_local' w = inr (pos, w1) -> resume_ready path (first_state pos) w1.
Proof.
  unfold check_local. intros H content Hc Hpos.
  destruct (os_path_exists path w) eqn:Hex.
  - destruct (eq_expected _ _); [done|].
    destruct (gt_expected _ _); inversion H; subst; clear H.
    + simpl in Hc. by rewrite lookup_delete_eq in Hc.
    + simpl in Hc. rewrite (getsize_some _ _ _ Hc) in *.
      unfold first_state. simpl.
      destruct (size_of content >? 0) eqn:Hgt; [|lia].
      split; [done|]. apply lookup_singleton_eq.
  - inversion H; subst. apply exists_false_inv in Hex. congruence.
Qed.


Lemma on_error_fs rc e ls w : fs (on_error' rc e ls w).2 = fs w.
Proof. unfold on_error. by destruct (os_path_exists _ _). Qed.

Lemma on_error_nreq rc e ls w : nreq (on_error' rc e ls w).2 = nreq w.
Proof. unfold on_error. by destruct (os_path_exists _ _). Qed.

Lemma on_error_extends rc e ls w : extends w (on_error' rc e ls w).2.
Proof.
  unfold on_error, extends.
  destruct (os_path_exists _ _); simpl; rewrite <- !app_assoc; eauto.
Qed.

(** The state the handler leaves depends on the disk alone (and on the
    headers dict it updates in place). *)
Lemma on_error_state rc e ls w :
  (on_error' rc e ls w).1 =
  match fs w !! path with
  | Some content =>
      LoopState (size_of content) AB
                (<["Range" := range_value (size_of content)]> (headers ls))
  | None => LoopState 0 WB ∅
  end.
Proof.
  unfold on_error.
  destruct (fs w !! path) as [content|] eqn:Hc.
  - rewrite (exists_true path _ content) by done.
    simpl. by rewrite (getsize_some path _ content).
  - by rewrite (exists_false path) by done.
Qed.

Lemma on_error_ready rc e ls w :
  resume_ready path (on_error' rc e ls w).1 (on_error' rc e ls w).2.
Proof.
  intros content Hc Hpos. rewrite on_error_fs in Hc.
  rewrite on_error_state, Hc. simpl. split; [done|]. apply lookup_insert_eq.
Qed.

Lemma attempt_nreq ls w : nreq (attempt' ls w).2 = S (nreq w).
Proof.
  unfold attempt. destruct (server _ _) as [|r]; [done|].
  destruct (raises_for_status _); [done|].
  destruct (negotiate ls r) as [p|]; [|done].
  destruct (open_fails _); [cbn [snd]; by rewrite nreq_announce|].
  destruct (end_exn _); [cbn [snd]; by rewrite nreq_receive, nreq_announce|].
  destruct (size_mismatch _ _ _); cbn [snd print emit nreq];
    by rewrite nreq_receive, nreq_announce.
Qed.

Lemma attempt_states_ready remaining : forall ls w,
  resume_ready path ls w ->
  Forall (fun s => resume_ready path s.1 s.2) (attempt_states' remaining ls w).
Proof.
  induction remaining as [|k IH]; intros ls w Hready; simpl; [constructor|].
  constructor; [done|].
  destruct (attempt' ls w) as [[[e|] ls1] w1]; [|constructor].
  destruct (on_error' (max_retries - k) e ls1 w1) as [ls2 w2] eqn:Herr.
  apply IH.
  pose proof (on_error_ready (max_retries - k) e ls1 w1) as H.
  by rewrite Herr in H.
Qed.

Lemma download_attempts_ready w :
  Forall (fun s => resume_ready path s.1 s.2) (download_attempts' w).
Proof.
  unfold download_attempts.
  destruct (check_local' w) as [w1|[pos w1]] eqn:Hc; [constructor|].
  apply attempt_states_ready. by apply first_state_ready with w.
Qed.


Lemma attempt_sends_request ls w :
  exists tl,
    log (attempt' ls w).2 = (log w ++ EvRequest (Request url (headers ls)) :: tl)%list.
Proof.
  assert (Hfin : forall w', extends (send (Request url (headers ls)) w) w' ->
            exists tl, log w' = (log w ++ EvRequest (Request url (headers ls)) :: tl)%list).
  { intros w' [tl Htl]. exists tl. rewrite Htl. simpl. by rewrite <- app_assoc. }
  unfold attempt. destruct (server _ _) as [|r]; [apply Hfin, extends_refl|].
  destruct (raises_for_status _); [apply Hfin, extends_refl|].
  destruct (negotiate ls r) as [p|]; [|apply Hfin, extends_refl].
  destruct (open_fails _); [apply Hfin, announce_extends|].
  assert (H3 : extends (send (Request url (headers ls)) w)
                 (receive path p r (announce p (send (Request url (headers ls)) w)))).
  { eapply extends_trans; [apply announce_extends|apply receive_extends]. }
  destruct (end_exn _); [by apply Hfin|].
  destruct (size_mismatch _ _ _); [by apply Hfin|].
  apply Hfin. eapply extends_trans; [done|apply extends_emit].
Qed.

Lemma negotiate_206 ls r n :
  0 < initial_pos ls ->
  status_code r = 206 ->
  int_content_length (content_length r) = Some n ->
  negotiate ls r = Some (Plan (n + initial_pos ls) (initial_pos ls) (mode ls) false).
Proof.
  intros Hpos Hst Hn. unfold negotiate. rewrite Hn, Hst.
  destruct (initial_pos ls >? 0) eqn:E; [done|lia].
Qed.

Lemma negotiate_200 ls r n :
  0 < initial_pos ls ->
  status_code r = 200 ->
  int_content_length (content_length r) = Some n ->
  negotiate ls r = Some (Plan n 0 WB true).
Proof.
  intros Hpos Hst Hn. unfold negotiate. rewrite Hn, Hst.
  destruct (initial_pos ls >? 0) eqn:E; [done|lia].
Qed.

Lemma attempt_progress ls w r p :
  server (nreq w) (Request url (headers ls)) = Reply r ->
  raises_for_status (status_code r) = false ->
  negotiate ls r = Some p ->
  restarted p = false ->
  exists tl,
    log (attempt' ls w).2
    = (log w ++ EvRequest (Request url (headers ls))
             :: EvProgress (total_size p) (plan_pos p) :: tl)%list.
Proof.
  intros Hsrv Hraise Hneg Hres.
  set (w2 := announce p (send (Request url (headers ls)) w)).
  assert (Hfin : forall w', extends w2 w' ->
            exists tl, log w' = (log w ++ EvRequest (Request url (headers ls))
                                 :: EvProgress (total_size p) (plan_pos p) :: tl)%list).
  { intros w' [tl Htl]. exists tl. rewrite Htl. unfold w2, announce.
    rewrite Hres. simpl. by rewrite <- !app_assoc. }
  unfold attempt. rewrite Hsrv, Hraise, Hneg. fold w2.
  destruct (open_fails _); [apply Hfin, extends_refl|].
  destruct (end_exn _); [apply Hfin, receive_extends|].
  destruct (size_mismatch _ _ _); [apply Hfin, receive_extends|].
  apply Hfin. eapply extends_trans; [apply receive_extends|apply extends_emit].
Qed.

(** C1 (resume correctness).  In every attempt that [download_file] makes
    while the local file holds [K > 0] bytes, the request carries the header
    [Range: bytes=K-]; and when the reply has status 206, the progress bar
    is created with total [content-length + K], starting from [K]. *)
Theorem resume_request_and_total w ls w0 content :
  (ls, w0) ∈ download_attempts' w ->
  fs w0 !! path = Some content ->
  0 < size_of content ->
  headers ls !! "Range" = Some ("bytes=" ++ Py.str_int (size_of content) ++ "-")
  /\ (exists tl,
        log (attempt' ls w0).2
        = (log w0 ++ EvRequest (Request url (headers ls)) :: tl)%list)
  /\ (forall r n,
        server (nreq w0) (Request url (headers ls)) = Reply r ->
        status_code r = 206 ->
        int_content_length (content_length r) = Some n ->
        exists tl,
          log (attempt' ls w0).2
          = (log w0 ++ EvRequest (Request url (headers ls))
                    :: EvProgress (n + size_of content) (size_of content) :: tl)%list).
Proof.
  intros Hin Hc Hpos.
  pose proof (download_attempts_ready w) as Hall.
  rewrite Forall_forall in Hall. specialize (Hall _ Hin content Hc Hpos).
  simpl in Hall. destruct Hall as [Hip Hrange].
  split; [exact Hrange|]. split; [apply attempt_sends_request|].
  intros r n Hsrv Hst Hn.
  assert (Hneg := negotiate_206 ls r n ltac:(lia) Hst Hn).
  destruct (attempt_progress ls w0 r _ Hsrv ltac:(by rewrite Hst) Hneg eq_refl)
    as [tl Htl].
  exists tl. rewrite Htl. simpl. by rewrite Hip.
Qed.


(** An attempt that gets as far as opening the file. *)
Lemma attempt_streamed ls w r p :
  server (nreq w) (Request url (headers ls)) = Reply r ->
  raises_for_status (status_code r) = false ->
  negotiate ls r = Some p ->
  open_fails (nreq w) = false ->
  attempt' ls w =
    let ls1 := LoopState (plan_pos p) (plan_mode p) (headers ls) in
    let w1 := receive path p r (announce p (send (Request url (headers ls)) w)) in
    match end_exn (body_end r) with
    | Some e => (Some e, ls1, w1)
    | None =>
        if size_mismatch path expected_size w1 then (Some SizeMismatch, ls1, w1)
        else (None, ls1, print (MsgComplete filename) w1)
    end.
Proof.
  intros Hsrv Hraise Hneg Hopen. unfold attempt.
  by rewrite Hsrv, Hraise, Hneg, Hopen.
Qed.

(** C2 (ignored-range restart).  When a request sent with a range (the
    local file holds [K > 0] bytes) is answered with status 200, the attempt
    prints the restart message, resets the position to 0, creates the
    progress bar with the content-length as total, reopens the file in write
    mode, and the file then holds exactly the chunks of this response: the
    bytes that were there are gone.  When the stream ends normally the
    attempt succeeds unless a non-zero expected size disagrees with the
    size of what was received. *)
Theorem ignored_range_restart w ls w0 content r n :
  (ls, w0) ∈ download_attempts' w ->
  fs w0 !! path = Some content ->
  0 < size_of content ->
  server (nreq w0) (Request url (headers ls)) = Reply r ->
  status_code r = 200 ->
  int_content_length (content_length r) = Some n ->
  open_fails (nreq w0) = false ->
  headers ls !! "Range" = Some (range_value (size_of content))
  /\ initial_pos (attempt' ls w0).1.2 = 0
  /\ mode (attempt' ls w0).1.2 = WB
  /\ (exists tl,
        log (attempt' ls w0).2
        = (log w0 ++ EvRequest (Request url (headers ls))
                  :: EvPrint MsgRestart :: EvProgress n 0
                  :: EvOpen path WB :: tl)%list)
  /\ fs (attempt' ls w0).2 !! path = Some (concat (body r))
  /\ (body_end r = EndOk ->
      (attempt' ls w0).1.1 =
        if (Py.truthy_int expected_size
            && negb (size_of (concat (body r)) =? default 0 expected_size))%bool
        then Some SizeMismatch else None).
Proof.
  intros Hin Hc Hpos Hsrv Hst Hn Hopen.
  pose proof (download_attempts_ready w) as Hall.
  rewrite Forall_forall in Hall. specialize (Hall _ Hin content Hc Hpos).
  simpl in Hall. destruct Hall as [Hip Hrange].
  split; [exact Hrange|].
  assert (Hneg := negotiate_200 ls r n ltac:(lia) Hst Hn).
  rewrite (attempt_streamed ls w0 r _ Hsrv ltac:(by rewrite Hst) Hneg Hopen).
  set (w1 := announce _ _).
  assert (Hfile : fs (receive path (Plan n 0 WB true) r w1) !! path
                  = Some (concat (body r))) by apply receive_lookup.
  assert (Hlog : exists tl,
            log (receive path (Plan n 0 WB true) r w1)
            = (log w0 ++ EvRequest (Request url (headers ls))
                      :: EvPrint MsgRestart :: EvProgress n 0
                      :: EvOpen path WB :: tl)%list).
  { destruct (receive_opens path (Plan n 0 WB true) r w1) as [tl Htl].
    exists tl. rewrite Htl. unfold w1. simpl. by rewrite <- !app_assoc. }
  assert (Hmis : size_mismatch path expected_size (receive path (Plan n 0 WB true) r w1)
                 = (Py.truthy_int expected_size
                    && negb (size_of (concat (body r)) =? default 0 expected_size))%bool).
  { unfold size_mismatch. by rewrite (getsize_some _ _ _ Hfile). }
  cbv zeta. rewrite Hmis.
  destruct (end_exn (body_end r)) as [e|] eqn:Hend.
  - repeat split; try done. intros HE. rewrite HE in Hend. discriminate.
  - destruct (_ && _)%bool; repeat split; try done.
    + destruct Hlog as [tl Htl]. exists (tl ++ [EvPrint (MsgComplete filename)])%list.
      simpl. rewrite Htl. by rewrite <- app_assoc.
Qed.


(** *** The retry loop *)

Lemma retry_loop_requests k : forall ls w,
  nreq (retry_loop' k ls w).2 = (nreq w + length (attempt_states' k ls w))%nat.
Proof.
  induction k as [|k IH]; intros ls w; simpl; [lia|].
  pose proof (attempt_nreq ls w) as Hn.
  destruct (attempt' ls w) as [[[e|] ls1] w1]; simpl in *; [|lia].
  pose proof (on_error_nreq (max_retries - k) e ls1 w1) as Hn2.
  destruct (on_error' (max_retries - k) e ls1 w1) as [ls2 w2]; simpl in *.
  rewrite IH. lia.
Qed.

Lemma attempt_states_length k ls w : (length (attempt_states' k ls w) <= k)%nat.
Proof.
  revert ls w. induction k as [|k IH]; intros ls w; simpl; [lia|].
  destruct (attempt' ls w) as [[[e|] ls1] w1]; simpl; [|lia].
  destruct (on_error' (max_retries - k) e ls1 w1) as [ls2 w2].
  specialize (IH ls2 w2). lia.
Qed.

(** When every attempt made fails, the loop runs out of retries: it makes
    exactly [k] attempts, gives up and returns [False]. *)
Lemma retry_loop_exhausted k : forall ls w,
  Forall (fun s => is_Some (attempt' s.1 s.2).1.1) (attempt_states' k ls w) ->
  length (attempt_states' k ls w) = k
  /\ (retry_loop' k ls w).1 = false
  /\ last (log (retry_loop' k ls w).2) = Some (EvPrint (MsgGiveUp filename)).
Proof.
  induction k as [|k IH]; intros ls w Hall; simpl.
  - repeat split. apply last_snoc.
  - simpl in Hall. inversion Hall as [|? ? Hhd Htl]; subst. simpl in Hhd.
    destruct (attempt' ls w) as [[[e|] ls1] w1]; simpl in *.
    + destruct (on_error' (max_retries - k) e ls1 w1) as [ls2 w2].
      destruct (IH ls2 w2 Htl) as (Hlen & Hres & Hlast). by rewrite Hlen.
    + by destruct Hhd.
Qed.

(** Conversely, [False] comes back only after [k] failed attempts. *)
Lemma retry_loop_false k : forall ls w,
  (retry_loop' k ls w).1 = false ->
  length (attempt_states' k ls w) = k
  /\ Forall (fun s => is_Some (attempt' s.1 s.2).1.1) (attempt_states' k ls w).
Proof.
  induction k as [|k IH]; intros ls w Hres; simpl in *.
  - split; [done|constructor].
  - destruct (attempt' ls w) as [[[e|] ls1] w1] eqn:Hatt; simpl in *; [|done].
    destruct (on_error' (max_retries - k) e ls1 w1) as [ls2 w2].
    destruct (IH ls2 w2 Hres) as [Hlen Hall]. split; [by rewrite Hlen|].
    constructor; [|done]. simpl. rewrite Hatt. by eexists.
Qed.

Lemma download_file_requests w :
  nreq (download_file' w).2 = (nreq w + length (download_attempts' w))%nat
  /\ (length (download_attempts' w) <= max_retries)%nat.
Proof.
  unfold download_file, download_attempts, check_local.
  destruct (os_path_exists path w).
  - destruct (eq_expected _ _); [simpl; lia|].
    destruct (gt_expected _ _); rewrite retry_loop_requests;
      split; try apply attempt_states_length; done.
  - rewrite retry_loop_requests. split; [done|apply attempt_states_length].
Qed.

Lemma download_file_exhausted w :
  (forall w1, check_local' w <> inl w1) ->
  Forall (fun s => is_Some (attempt' s.1 s.2).1.1) (download_attempts' w) ->
  (download_file' w).1 = false
  /\ nreq (download_file' w).2 = (nreq w + max_retries)%nat
  /\ last (log (download_file' w).2) = Some (EvPrint (MsgGiveUp filename)).
Proof.
  intros Hne Hall.
  destruct (download_file_requests w) as [Hreq _]. rewrite Hreq. clear Hreq.
  unfold download_file, download_attempts in *.
  destruct (check_local' w) as [w1|[pos w1]]; [by destruct (Hne w1)|].
  destruct (retry_loop_exhausted _ _ _ Hall) as (Hlen & Hres & Hlast).
  by rewrite Hlen.
Qed.

Lemma download_file_false w :
  (download_file' w).1 = false ->
  length (download_attempts' w) = max_retries
  /\ Forall (fun s => is_Some (attempt' s.1 s.2).1.1) (download_attempts' w).
Proof.
  unfold download_file, download_attempts.
  destruct (check_local' w) as [w1|[pos w1]]; [done|].
  apply retry_loop_false.
Qed.


Lemma retry_loop_extends k : forall ls w, extends w (retry_loop' k ls w).2.
Proof.
  induction k as [|k IH]; intros ls w; simpl.
  - apply extends_emit.
  - pose proof (attempt_sends_request ls w) as [tl Htl].
    destruct (attempt' ls w) as [[[e|] ls1] w1]; simpl in *.
    + pose proof (on_error_extends (max_retries - k) e ls1 w1) as Hext.
      destruct (on_error' (max_retries - k) e ls1 w1) as [ls2 w2].
      eapply extends_trans; [|apply IH].
      eapply extends_trans; [|exact Hext]. by eexists.
    + by eexists.
Qed.

Lemma retry_loop_first_request k ls w :
  exists tl,
    log (retry_loop' (S k) ls w).2
    = (log w ++ EvRequest (Request url (headers ls)) :: tl)%list.
Proof.
  simpl. destruct (attempt_sends_request ls w) as [tl Htl].
  destruct (attempt' ls w) as [[[e|] ls1] w1]; simpl in Htl; [|by eexists].
  pose proof (on_error_extends (max_retries - k) e ls1 w1) as [tl2 H2].
  destruct (on_error' (max_retries - k) e ls1 w1) as [ls2 w2]. simpl in H2.
  destruct (retry_loop_extends k ls2 w2) as [tl3 H3].
  eexists. rewrite H3, H2, Htl. rewrite <- !app_assoc. simpl. reflexivity.
Qed.

(** *** The failure path *)

(** C4 (error atomicity).  When an attempt fails, the handler leaves the
    file system as the failure left it; the state for the next attempt is
    taken from the disk: position = size of the file, [Range] header from
    that size and append mode when the file exists, position 0, no header
    and write mode when it does not; the loop state the failed attempt left
    in memory plays no part.  A failure before the file is opened leaves the
    file system as it was before the attempt, and after a failure during or
    after the stream the file still ends with every chunk that was
    written, and the next position counts them. *)
Theorem failed_attempt_keeps_bytes ls w e ls1 w1 rc :
  attempt' ls w = (Some e, ls1, w1) ->
  fs (on_error' rc e ls1 w1).2 = fs w1
  /\ (forall content,
        fs w1 !! path = Some content ->
        initial_pos (on_error' rc e ls1 w1).1 = size_of content
        /\ headers (on_error' rc e ls1 w1).1 !! "Range"
           = Some (range_value (size_of content))
        /\ mode (on_error' rc e ls1 w1).1 = AB)
  /\ (fs w1 !! path = None -> (on_error' rc e ls1 w1).1 = LoopState 0 WB ∅)
  /\ (forall ls', headers ls' = headers ls1 ->
        on_error' rc e ls' w1 = on_error' rc e ls1 w1)
  /\ (forall k,
        retry_loop' (S k) ls w
        = retry_loop' k (on_error' (max_retries - k) e ls1 w1).1
                        (on_error' (max_retries - k) e ls1 w1).2)
  /\ match e with
     | ConnectionError | HTTPError _ | ValueError | OpenError => fs w1 = fs w
     | StreamError | WriteError | SizeMismatch =>
         exists r base,
           server (nreq w) (Request url (headers ls)) = Reply r
           /\ fs w1 !! path = Some (base ++ concat (body r))%list
           /\ (mode ls1 = AB -> base = default [] (fs w !! path))
           /\ initial_pos (on_error' rc e ls1 w1).1
              = size_of (base ++ concat (body r))%list
     end.
Proof.
  intros Hatt.
  split; [apply on_error_fs|].
  split.
  { intros content Hc. rewrite on_error_state, Hc. simpl.
    repeat split. apply lookup_insert_eq. }
  split.
  { intros Hc. by rewrite on_error_state, Hc. }
  split.
  { intros ls' Hh. unfold on_error. by rewrite Hh. }
  split.
  { intros k. simpl. rewrite Hatt. by destruct (on_error' _ _ _ _). }
  revert Hatt. unfold attempt.
  destruct (server _ _) as [|r] eqn:Hsrv.
  { intros [= <- <- <-]. done. }
  destruct (raises_for_status _).
  { intros [= <- <- <-]. done. }
  destruct (negotiate ls r) as [p|]; [|intros [= <- <- <-]; done].
  destruct (open_fails _).
  { intros [= <- <- <-]. by rewrite fs_announce. }
  set (w0 := announce p _).
  assert (Hfile := receive_lookup path p r w0).
  assert (Hbase : fs w0 = fs w) by (unfold w0; by rewrite fs_announce).
  assert (Hgoal : forall e0,
    exists r0 base,
      Reply r = Reply r0
      /\ fs (receive path p r w0) !! path = Some (base ++ concat (body r0))%list
      /\ (plan_mode p = AB -> base = default [] (fs w !! path))
      /\ initial_pos (on_error' rc e0 (LoopState (plan_pos p) (plan_mode p) (headers ls))
                                (receive path p r w0)).1
         = size_of (base ++ concat (body r0))%list).
  { intros e0. eexists r, _. split; [done|]. split; [exact Hfile|].
    split.
    - intros Hm. rewrite Hm. by rewrite Hbase.
    - by rewrite on_error_state, Hfile. }
  destruct (end_exn (body_end r)) as [e'|] eqn:Hend.
  { intros [= <- <- <-]. destruct (body_end r); simplify_eq/=; apply Hgoal. }
  destruct (size_mismatch _ _ _); [|done].
  intros [= <- <- <-]. apply Hgoal.
Qed.


(** *** Verification of the final size *)

(** C8, amended (final-size verification).  When the stream of an attempt
    ends normally: if the expected size is known and not zero and the final
    size of the file differs from it, the attempt raises the size mismatch,
    which the handler catches, so the loop goes on to the next retry; if the
    final size equals the expected size, or the expected size is unknown or
    zero, the attempt succeeds and [download_file] returns [True]. *)
Theorem final_size_verification ls w r p :
  server (nreq w) (Request url (headers ls)) = Reply r ->
  raises_for_status (status_code r) = false ->
  negotiate ls r = Some p ->
  open_fails (nreq w) = false ->
  body_end r = EndOk ->
  let ls1 := LoopState (plan_pos p) (plan_mode p) (headers ls) in
  let w1 := receive path p r (announce p (send (Request url (headers ls)) w)) in
  let final := os_path_getsize path w1 in
  (forall e, expected_size = Some e -> e <> 0 -> final <> e ->
     attempt' ls w = (Some SizeMismatch, ls1, w1)
     /\ classify SizeMismatch = SizeError
     /\ forall k,
          retry_loop' (S k) ls w
          = retry_loop' k (on_error' (max_retries - k) SizeMismatch ls1 w1).1
                          (on_error' (max_retries - k) SizeMismatch ls1 w1).2)
  /\ (expected_size = None \/ expected_size = Some 0 \/ expected_size = Some final ->
      attempt' ls w = (None, ls1, print (MsgComplete filename) w1)
      /\ forall k, retry_loop' (S k) ls w = (true, print (MsgComplete filename) w1)).
Proof.
  intros Hsrv Hraise Hneg Hopen Hend ls1 w1 final.
  pose proof (attempt_streamed ls w r p Hsrv Hraise Hneg Hopen) as Hatt.
  rewrite Hend in Hatt. simpl in Hatt. fold w1 ls1 in Hatt.
  split.
  - intros e He Hnz Hfin.
    assert (Hmis : size_mismatch path expected_size w1 = true).
    { unfold size_mismatch. rewrite He. simpl. fold final.
      apply andb_true_intro. split; apply negb_true_iff; lia. }
    rewrite Hmis in Hatt. split; [done|]. split; [done|].
    intros k. simpl. rewrite Hatt. by destruct (on_error' _ _ _ _).
  - intros Hcase.
    assert (Hmis : size_mismatch path expected_size w1 = false).
    { unfold size_mismatch. destruct Hcase as [->|[->| ->]]; simpl; [done|done|].
      fold final. rewrite Z.eqb_refl. simpl. apply andb_false_r. }
    rewrite Hmis in Hatt. split; [done|].
    intros k. simpl. by rewrite Hatt.
Qed.

(** *** The check of the local file before the first attempt *)

Lemma complete_file_returns w content e :
  fs w !! path = Some content ->
  expected_size = Some e ->
  e <> 0 ->
  size_of content = e ->
  download_file' w = (true, print (MsgSkipComplete filename) w)
  /\ download_attempts' w = [].
Proof.
  intros Hc He Hnz Hsz.
  unfold download_file, download_attempts, check_local.
  rewrite (exists_true _ _ _ Hc), (getsize_some _ _ _ Hc).
  assert (Heq : eq_expected (size_of content) expected_size = true).
  { unfold eq_expected. rewrite He. simpl.
    apply andb_true_intro. split; [apply negb_true_iff|]; lia. }
  by rewrite Heq.
Qed.

(** C7, amended (oversize invariant).  On entry to [download_file], when
    the expected size is known and not zero and the local file is larger,
    the file is removed before any request is issued, and the first
    attempt starts from position 0: write mode, no [Range] header. *)
Theorem oversize_file_is_discarded w content e :
  fs w !! path = Some content ->
  expected_size = Some e ->
  e <> 0 ->
  e < size_of content ->
  let w1 := os_remove path (print (MsgOversize filename) w) in
  check_local' w = inr (0, w1)
  /\ fs w1 !! path = None
  /\ nreq w1 = nreq w
  /\ log w1 = (log w ++ [EvPrint (MsgOversize filename); EvRemove path])%list
  /\ download_file' w = retry_loop' max_retries (LoopState 0 WB ∅) w1
  /\ (forall k, max_retries = S k ->
        hd_error (download_attempts' w) = Some (LoopState 0 WB ∅, w1)
        /\ exists tl,
             log (download_file' w).2
             = (log w ++ EvPrint (MsgOversize filename) :: EvRemove path
                      :: EvRequest (Request url ∅) :: tl)%list).
Proof.
  intros Hc He Hnz Hgt w1.
  assert (Hck : check_local' w = inr (0, w1)).
  { unfold check_local.
    rewrite (exists_true _ _ _ Hc), (getsize_some _ _ _ Hc).
    assert (Heq : eq_expected (size_of content) expected_size = false).
    { unfold eq_expected. rewrite He. simpl.
      apply andb_false_iff. right. lia. }
    assert (Hg : gt_expected (size_of content) expected_size = true).
    { unfold gt_expected. rewrite He. simpl.
      apply andb_true_intro. split; [apply negb_true_iff|]; lia. }
    by rewrite Heq, Hg. }
  split; [done|].
  split; [simpl; apply lookup_delete_eq|].
  split; [done|].
  split; [simpl; by rewrite <- app_assoc|].
  unfold download_file, download_attempts. rewrite Hck.
  split; [done|].
  intros k Hk.
  replace (retry_loop' max_retries (first_state 0) w1)
    with (retry_loop' (S k) (first_state 0) w1) by (by rewrite Hk).
  replace (attempt_states' max_retries (first_state 0) w1)
    with (attempt_states' (S k) (first_state 0) w1) by (by rewrite Hk).
  split; [done|].
  destruct (retry_loop_first_request k (first_state 0) w1) as [tl Htl].
  exists tl. rewrite Htl. simpl. by rewrite <- !app_assoc.
Qed.

End OneFileFacts.

(** ** The passes of [main] *)

Section OrchestratorFacts.

Variable server : nat -> request -> reply.
Variable open_fails : nat -> bool.
Variable filter_keyword : string.
Variable output_dir : string.

Local Abbreviation pass_body' := (pass_body server open_fails filter_keyword output_dir).
Local Abbreviation pass_loop' := (pass_loop server open_fails filter_keyword output_dir).
Local Abbreviation run_pass' := (run_pass server open_fails filter_keyword output_dir).
Local Abbreviation main_loop' := (main_loop server open_fails filter_keyword output_dir).
Local Abbreviation entry_fails' := (entry_fails server open_fails filter_keyword output_dir).
Local Abbreviation pass_failures' :=
  (pass_failures server open_fails filter_keyword output_dir).
Local Abbreviation name_of fi := (default EmptyString (entry_name fi)).
Local Abbreviation url_of fi := (default EmptyString (entry_url fi)).
Local Abbreviation download' fi :=
  (download_file server open_fails (url_of fi) (name_of fi) output_dir
                 (fi_size fi) default_max_retries).
Local Abbreviation attempts' fi :=
  (download_attempts server open_fails (url_of fi) (name_of fi) output_dir
                     (fi_size fi) default_max_retries).

(** What the loop body does to the loop variables, whatever they are. *)
Lemma pass_body_split fi st w :
  pass_body' fi st w
  = (PassState (all_downloaded st && negb (entry_fails' fi w))
               (files_to_download_count st
                + (if counted filter_keyword fi then 1 else 0))%nat,
     (pass_body' fi (PassState true 0) w).2).
Proof.
  unfold entry_fails, pass_body, counted. destruct st as [flag count].
  destruct (unparseable fi); simpl.
  { by rewrite andb_true_r, Nat.add_0_r. }
  destruct (filtered_out _ _); simpl.
  { by rewrite andb_true_r, Nat.add_0_r. }
  replace (count + 1)%nat with (S count) by lia.
  destruct (already_complete _ _ _ _); simpl.
  { by rewrite andb_true_r. }
  destruct (download_file _ _ _ _ _ _ _ _) as [[|] w']; simpl.
  - by rewrite andb_true_r.
  - by rewrite andb_false_r.
Qed.

Lemma pass_loop_split l : forall st w,
  pass_loop' l st w
  = (PassState (all_downloaded st && bool_decide (pass_failures' l w = []))
               (files_to_download_count st + length (raw_filtered filter_keyword l))%nat,
     (pass_loop' l (PassState true 0) w).2).
Proof.
  induction l as [|fi rest IH]; intros st w; simpl.
  - destruct st. simpl. by rewrite andb_true_r, Nat.add_0_r.
  - rewrite (pass_body_split fi st w).
    rewrite (pass_body_split fi (PassState true 0) w).
    rewrite IH. rewrite (IH (PassState _ _)). simpl.
    f_equal. f_equal.
    + destruct (entry_fails' fi w); simpl.
      * rewrite andb_false_r. simpl. done.
      * by rewrite andb_true_r.
    + destruct (counted filter_keyword fi); simpl; lia.
    + by rewrite (IH (PassState (negb _) _)).
Qed.

Lemma run_pass_state files gp w :
  (run_pass' files gp w).1
  = PassState (bool_decide (pass_failures' files (print (MsgStartPass gp) w) = []))
              (length (raw_filtered filter_keyword files)).
Proof. unfold run_pass. by rewrite pass_loop_split. Qed.

Lemma check_local_already filename size w :
  already_complete output_dir filename size w = false ->
  forall w1, check_local filename output_dir size w <> inl w1.
Proof.
  unfold already_complete, check_local. intros H w1.
  destruct (os_path_exists _ w); [|done].
  simpl in H. rewrite H. by destruct (gt_expected _ _).
Qed.


Lemma pass_body_counted fi st w :
  counted filter_keyword fi = true ->
  already_complete output_dir (name_of fi) (fi_size fi) w = false ->
  pass_body' fi st w
  = let st1 := PassState (all_downloaded st) (S (files_to_download_count st)) in
    let r := download' fi (print (MsgPreparing (name_of fi) (fi_size fi)) w) in
    if r.1 then (st1, r.2)
    else (PassState false (S (files_to_download_count st)),
          print (MsgFailedWillRetry (name_of fi)) r.2).
Proof.
  unfold counted, pass_body. intros Hc Hac.
  destruct (unparseable fi); [done|].
  destruct (filtered_out _ _); [done|].
  rewrite Hac. by destruct (download_file _ _ _ _ _ _ _ _) as [[|] w'].
Qed.

Lemma pass_loop_flag_stays l : forall st w,
  all_downloaded st = false -> all_downloaded (pass_loop' l st w).1 = false.
Proof.
  intros st w H. rewrite pass_loop_split. simpl. by rewrite H.
Qed.

(** C3 (retry bound).  Take an entry that a pass counts and that is not
    already complete, and suppose every attempt made for it fails.  Then
    [download_file] makes exactly [max_retries] attempts (one request
    each), gives up and returns [False]; with the default of 5 retries
    that [main] uses, the pass clears its [all_downloaded] flag, prints that
    the file failed, and goes on with the entries that follow. *)
Theorem retry_bound fi rest st w max_retries :
  counted filter_keyword fi = true ->
  already_complete output_dir (name_of fi) (fi_size fi) w = false ->
  let w0 := print (MsgPreparing (name_of fi) (fi_size fi)) w in
  let attempts :=
    download_attempts server open_fails (url_of fi) (name_of fi) output_dir
                      (fi_size fi) max_retries w0 in
  let r :=
    download_file server open_fails (url_of fi) (name_of fi) output_dir
                  (fi_size fi) max_retries w0 in
  Forall (fun s => is_Some (attempt server open_fails (url_of fi) (name_of fi)
                                   output_dir (fi_size fi) s.1 s.2).1.1) attempts ->
  length attempts = max_retries
  /\ r.1 = false
  /\ nreq r.2 = (nreq w + max_retries)%nat
  /\ last (log r.2) = Some (EvPrint (MsgGiveUp (name_of fi)))
  /\ default_max_retries = 5%nat
  /\ (max_retries = default_max_retries ->
      pass_loop' (fi :: rest) st w
      = pass_loop' rest (PassState false (S (files_to_download_count st)))
                   (print (MsgFailedWillRetry (name_of fi)) r.2)
      /\ all_downloaded (pass_loop' (fi :: rest) st w).1 = false).
Proof.
  intros Hc Hac w0 attempts r Hall.
  assert (Hck : forall w1, check_local (name_of fi) output_dir (fi_size fi) w0 <> inl w1).
  { apply check_local_already. exact Hac. }
  destruct (download_file_exhausted _ _ _ _ _ _ _ w0 Hck Hall) as (Hres & Hn & Hlast).
  destruct (download_file_false _ _ _ _ _ _ _ w0 Hres) as [Hlen _].
  fold r in Hres, Hn, Hlast. fold attempts in Hlen.
  do 5 (split; [done|]).
  intros Hmax.
  assert (Hstep : pass_loop' (fi :: rest) st w
                  = pass_loop' rest (PassState false (S (files_to_download_count st)))
                               (print (MsgFailedWillRetry (name_of fi)) r.2)).
  { cbn [pass_loop]. rewrite (pass_body_counted fi st w Hc Hac).
    cbv zeta. fold w0. unfold r in Hres |- *. rewrite Hmax in Hres |- *.
    by rewrite Hres. }
  split; [exact Hstep|]. rewrite Hstep. by apply pass_loop_flag_stays.
Qed.


Lemma already_complete_fs filename size w w' :
  fs w' = fs w ->
  already_complete output_dir filename size w'
  = already_complete output_dir filename size w.
Proof.
  intros H. unfold already_complete, os_path_exists, os_path_getsize. by rewrite H.
Qed.

Lemma pass_body_uncounted fi st w :
  counted filter_keyword fi = false ->
  (pass_body' fi st w).1 = st
  /\ fs (pass_body' fi st w).2 = fs w
  /\ nreq (pass_body' fi st w).2 = nreq w
  /\ log (pass_body' fi st w).2
     = (log w ++ if unparseable fi then [EvPrint MsgUnparseable] else [])%list.
Proof.
  unfold counted, pass_body. intros Hc.
  destruct (unparseable fi); [done|].
  destruct (filtered_out _ _); [|done].
  by rewrite app_nil_r.
Qed.

Lemma pass_body_complete fi st w :
  counted filter_keyword fi = true ->
  already_complete output_dir (name_of fi) (fi_size fi) w = true ->
  pass_body' fi st w
  = (PassState (all_downloaded st) (S (files_to_download_count st)), w).
Proof.
  unfold counted, pass_body. intros Hc Hac.
  destruct (unparseable fi); [done|].
  destruct (filtered_out _ _); [done|].
  by rewrite Hac.
Qed.

(** A pass over entries that are all complete already touches nothing and
    fails nowhere. *)
Lemma pass_all_complete l : forall st w,
  Forall (fun fi => already_complete output_dir (name_of fi) (fi_size fi) w = true)
         (raw_filtered filter_keyword l) ->
  pass_failures' l w = []
  /\ fs (pass_loop' l st w).2 = fs w
  /\ nreq (pass_loop' l st w).2 = nreq w.
Proof.
  induction l as [|fi rest IH]; intros st w Hall; [done|].
  cbn [pass_loop pass_failures]. unfold entry_fails.
  unfold raw_filtered in Hall. cbn [List.filter] in Hall.
  destruct (counted filter_keyword fi) eqn:Hc.
  - inversion Hall as [|? ? Hhd Htl]; subst.
    rewrite !(pass_body_complete fi _ w Hc Hhd). simpl.
    by apply IH.
  - destruct (pass_body_uncounted fi st w Hc) as (Hst & Hfs & Hn & _).
    destruct (pass_body_uncounted fi (PassState true 0) w Hc) as (Hst0 & Hfs0 & _).
    rewrite Hst0. simpl.
    destruct (pass_body' fi st w) as [st1 w1] eqn:E1.
    destruct (pass_body' fi (PassState true 0) w) as [st2 w2] eqn:E2.
    simpl in *.
    assert (Hw : w2 = w1).
    { pose proof (pass_body_split fi st w) as Hs. rewrite E1, E2 in Hs.
      simpl in Hs. by inversion Hs. }
    subst w2.
    destruct (IH st1 w1) as (H1 & H2 & H3).
    { eapply Forall_impl; [exact Hall|]. intros x Hx. simpl in Hx.
      by rewrite (already_complete_fs _ _ w). }
    rewrite H1, H2, H3. done.
Qed.

End OrchestratorFacts.

Lemma down_retry_loop url filename output_dir expected_size max_retries k :
  forall ls w,
  (retry_loop down_server never_fails url filename output_dir expected_size
              max_retries k ls w).1 = false.
Proof.
  induction k as [|k IH]; intros ls w; [done|].
  cbn [retry_loop]. unfold attempt, down_server, on_error.
  destruct (os_path_exists (filepath filename output_dir) _); apply IH.
Qed.

Lemma lonely_never_ends fuel : forall gp w,
  (main_loop down_server never_fails no_filter "/out" lonely_manifest fuel gp w).1 = None.
Proof.
  induction fuel as [|fuel IH]; intros gp w; [done|].
  cbn [main_loop]. unfold run_pass, lonely_manifest. cbn [pass_loop].
  unfold pass_body.
  change (unparseable _) with false.
  change (filtered_out no_filter _) with false.
  cbv iota.
  assert (Hac : forall w0, already_complete "/out" "d.bin" None w0 = false).
  { intros w0. unfold already_complete, eq_expected. simpl. apply andb_false_r. }
  change (default EmptyString (entry_name _)) with "d.bin".
  change (fi_size _) with (@None Z).
  rewrite Hac.
  set (w0 := print (MsgPreparing _ _) _).
  pose proof (down_retry_loop "/out" (default EmptyString (entry_url
     (FileInfo (Some "d.bin") None (Some "http://host/d.bin") None None)))
     "d.bin" None default_max_retries default_max_retries (first_state 0) w0) as H0.
  assert (Hdl : forall w1,
    (download_file down_server never_fails
       (default EmptyString (entry_url (FileInfo (Some "d.bin") None (Some "http://host/d.bin") None None)))
       "d.bin" "/out" None default_max_retries w1).1 = false).
  { intros w1. unfold download_file, check_local, eq_expected, gt_expected.
    simpl Py.truthy_int. cbv iota. simpl andb. cbv iota.
    destruct (os_path_exists _ w1); apply down_retry_loop. }
  specialize (Hdl w0).
  destruct (download_file _ _ _ _ _ _ _ w0) as [b w1]. simpl in Hdl. subst b.
  cbn. apply IH.
Qed.

(** C5 (pass-loop termination and reporting).  After a pass, the counter
    equals the size of the raw filtered set (the entries with a name and a
    link whose name passes the filter, counted before any look at the local
    files), and the loop stops exactly when the failure set of the pass is
    empty: it then reports "no matching files" when the raw filtered set is
    empty and full success otherwise; when the failure set is not empty it
    sleeps and starts the next pass.  A pass whose filtered entries are all
    complete already has an empty failure set and issues no request.
    Nothing bounds the number of passes: with a server that is down, the
    loop over a one-entry manifest is still running after any number of
    passes. *)
Theorem pass_loop_termination server open_fails filter_keyword output_dir
        files fuel gp w :
  let st := (run_pass server open_fails filter_keyword output_dir files gp w).1 in
  let w1 := (run_pass server open_fails filter_keyword output_dir files gp w).2 in
  let failures :=
    pass_failures server open_fails filter_keyword output_dir files
                  (print (MsgStartPass gp) w) in
  let n := length (raw_filtered filter_keyword files) in
  files_to_download_count st = n
  /\ main_loop server open_fails filter_keyword output_dir files (S fuel) gp w
     = (if bool_decide (failures = []) then
          if bool_decide (raw_filtered filter_keyword files = []) then
            (Some NoMatchingFiles, print MsgNoMatching w1)
          else (Some (AllSucceeded n), print (MsgAllDownloaded n) w1)
        else
          main_loop server open_fails filter_keyword output_dir files fuel (S gp)
                    (emit (EvSleep 10) (print (MsgPassFailures gp) w1)))
  /\ (Forall (fun fi => already_complete output_dir (default EmptyString (entry_name fi))
                                         (fi_size fi) w = true)
             (raw_filtered filter_keyword files) ->
      failures = [] /\ nreq w1 = nreq w /\ fs w1 = fs w)
  /\ (forall passes gp' w',
       (main_loop down_server never_fails no_filter "/out" lonely_manifest
                  passes gp' w').1 = None).
Proof.
  intros st w1 failures n.
  pose proof (run_pass_state server open_fails filter_keyword output_dir files gp w)
    as Hst.
  fold st failures n in Hst.
  split; [by rewrite Hst|].
  split.
  { cbn [main_loop].
    destruct (run_pass server open_fails filter_keyword output_dir files gp w)
      as [st' w1'] eqn:Hrun.
    simpl in st, w1. subst st w1. rewrite Hst. simpl.
    unfold n. destruct (raw_filtered filter_keyword files) as [|fi l] eqn:Hraw.
    - simpl.
      assert (Hf : failures = []).
      { unfold failures.
        destruct (pass_all_complete server open_fails filter_keyword output_dir
                    files (PassState true 0) (print (MsgStartPass gp) w)) as [H _];
          [by rewrite Hraw|done]. }
      by rewrite Hf.
    - simpl. by destruct (bool_decide (failures = [])). }
  split.
  { intros Hall.
    destruct (pass_all_complete server open_fails filter_keyword output_dir
                files (PassState true 0) (print (MsgStartPass gp) w)) as (H1 & H2 & H3).
    - eapply Forall_impl; [exact Hall|]. intros fi Hfi. simpl in Hfi.
      by rewrite (already_complete_fs _ _ _ w).
    - done. }
  intros passes gp' w'. apply lonely_never_ends.
Qed.

(** ** Complete files and the expected size 0 *)

(** C6, amended (idempotence).  For an entry whose local file exists with a
    size equal to a known expected size that is not zero, [download_file]
    returns [True] at once, having made no attempt and no request and left
    the file system alone; and a pass that counts the entry does not even
    call it: the loop body only increments the counter. *)
Theorem complete_file_no_request server open_fails filter_keyword output_dir
        fi st w content e max_retries :
  counted filter_keyword fi = true ->
  fs w !! filepath (default EmptyString (entry_name fi)) output_dir = Some content ->
  fi_size fi = Some e ->
  e <> 0 ->
  size_of content = e ->
  let name := default EmptyString (entry_name fi) in
  let url := default EmptyString (entry_url fi) in
  download_file server open_fails url name output_dir (fi_size fi) max_retries w
  = (true, print (MsgSkipComplete name) w)
  /\ download_attempts server open_fails url name output_dir (fi_size fi)
                       max_retries w = []
  /\ nreq (download_file server open_fails url name output_dir (fi_size fi)
                         max_retries w).2 = nreq w
  /\ fs (download_file server open_fails url name output_dir (fi_size fi)
                       max_retries w).2 = fs w
  /\ pass_body server open_fails filter_keyword output_dir fi st w
     = (PassState (all_downloaded st) (S (files_to_download_count st)), w).
Proof.
  intros Hc Hfile He Hnz Hsz name url.
  destruct (complete_file_returns server open_fails url name output_dir
              (fi_size fi) max_retries w content e Hfile He Hnz Hsz) as [Hdl Hat].
  rewrite Hdl, Hat. do 4 (split; [done|]).
  apply pass_body_complete; [done|].
  unfold already_complete. rewrite (exists_true _ _ _ Hfile).
  rewrite (getsize_some _ _ _ Hfile). unfold eq_expected. rewrite He. simpl.
  apply andb_true_intro. split; [apply negb_true_iff|]; lia.
Qed.

Lemma size_mismatch_zero path w : size_mismatch path (Some 0) w = false.
Proof. reflexivity. Qed.

Lemma attempt_zero server open_fails url filename output_dir ls w :
  attempt server open_fails url filename output_dir (Some 0) ls w
  = attempt server open_fails url filename output_dir None ls w.
Proof. reflexivity. Qed.

Lemma retry_loop_zero server open_fails url filename output_dir max_retries k :
  forall ls w,
  retry_loop server open_fails url filename output_dir (Some 0) max_retries k ls w
  = retry_loop server open_fails url filename output_dir None max_retries k ls w.
Proof.
  induction k as [|k IH]; intros ls w; [done|].
  cbn [retry_loop]. rewrite attempt_zero.
  destruct (attempt _ _ _ _ _ None ls w) as [[[e|] ls1] w1]; [|done].
  destruct (on_error _ _ _ _ _ _ _) as [ls2 w2]. apply IH.
Qed.

Lemma check_local_zero filename output_dir w :
  check_local filename output_dir (Some 0) w
  = if os_path_exists (filepath filename output_dir) w then
      inr (os_path_getsize (filepath filename output_dir) w,
           print (MsgResume (os_path_getsize (filepath filename output_dir) w)
                            filename) w)
    else inr (0, w).
Proof. reflexivity. Qed.

(** C10 (expected size 0).  An entry whose size is 0 is handled as one of
    unknown size: the check of the local file neither skips nor discards,
    every attempt and the whole of [download_file] behave as with no
    expected size, the final size is never found to mismatch, the quick
    check of the pass never finds the entry complete, and so every pass
    calls [download_file] for it and issues at least one request. *)
Theorem zero_expected_size_is_unknown server open_fails filter_keyword output_dir
        fi st w max_retries :
  counted filter_keyword fi = true ->
  fi_size fi = Some 0 ->
  let name := default EmptyString (entry_name fi) in
  let url := default EmptyString (entry_url fi) in
  let path := filepath name output_dir in
  check_local name output_dir (fi_size fi) w
  = (if os_path_exists path w then
       inr (os_path_getsize path w, print (MsgResume (os_path_getsize path w) name) w)
     else inr (0, w))
  /\ download_file server open_fails url name output_dir (fi_size fi) max_retries w
     = download_file server open_fails url name output_dir None max_retries w
  /\ (forall ls w0,
       attempt server open_fails url name output_dir (fi_size fi) ls w0
       = attempt server open_fails url name output_dir None ls w0)
  /\ (forall w0, size_mismatch path (fi_size fi) w0 = false)
  /\ already_complete output_dir name (fi_size fi) w = false
  /\ pass_body server open_fails filter_keyword output_dir fi st w
     = (let r := download_file server open_fails url name output_dir (fi_size fi)
                               default_max_retries
                               (print (MsgPreparing name (fi_size fi)) w) in
        if r.1 then
          (PassState (all_downloaded st) (S (files_to_download_count st)), r.2)
        else
          (PassState false (S (files_to_download_count st)),
           print (MsgFailedWillRetry name) r.2))
  /\ (nreq w < nreq (pass_body server open_fails filter_keyword output_dir fi st w).2)%nat.
Proof.
  intros Hc Hz name url path. rewrite Hz.
  assert (Hac : already_complete output_dir name (Some 0) w = false).
  { unfold already_complete, eq_expected. simpl. apply andb_false_r. }
  split; [apply check_local_zero|].
  split.
  { unfold download_file. rewrite check_local_zero. unfold check_local.
    fold path. change (eq_expected _ None) with false.
    change (gt_expected _ None) with false. cbv iota.
    destruct (os_path_exists path w); apply retry_loop_zero. }
  split; [intros; apply attempt_zero|].
  split; [intros; apply size_mismatch_zero|].
  split; [exact Hac|].
  assert (Hbody := pass_body_counted server open_fails filter_keyword output_dir fi st w Hc).
  rewrite Hz in Hbody. specialize (Hbody Hac). fold name url in Hbody.
  split; [exact Hbody|].
  rewrite Hbody. cbv zeta.
  set (w0 := print (MsgPreparing name (Some 0)) w).
  assert (Hn : (nreq w0 < nreq (download_file server open_fails url name output_dir
                                   (Some 0%Z) default_max_retries w0).2)%nat).
  { destruct (download_file_requests server open_fails url name output_dir (Some 0)
                default_max_retries w0) as [Hreq _].
    rewrite Hreq. unfold download_attempts. rewrite check_local_zero.
    destruct (os_path_exists _ w0); simpl; lia. }
  destruct (download_file _ _ _ _ _ _ _ w0) as [[|] w']; simpl in *; exact Hn.
Qed.

(** ** Which URLs and files a run touches *)

Lemma emits_refl P w : emits P w w.
Proof. exists []. split; [by rewrite app_nil_r|constructor]. Qed.

Lemma emits_trans P w1 w2 w3 : emits P w1 w2 -> emits P w2 w3 -> emits P w1 w3.
Proof.
  intros (t1 & H1 & F1) (t2 & H2 & F2). exists (t1 ++ t2)%list.
  split; [by rewrite H2, H1, app_assoc|by apply Forall_app].
Qed.

Lemma emits_emit (P : event -> Prop) e w : P e -> emits P w (emit e w).
Proof. intros He. exists [e]. split; [done|by constructor]. Qed.

Section Touches.

Variable server : nat -> request -> reply.
Variable open_fails : nat -> bool.
Variables (url filename output_dir : string).
Variable expected_size : option Z.
Variable max_retries : nat.
Variable P : event -> Prop.

Local Abbreviation path := (filepath filename output_dir).

Hypothesis P_request : forall h, P (EvRequest (Request url h)).
Hypothesis P_remove : P (EvRemove path).
Hypothesis P_open : forall m, P (EvOpen path m).
Hypothesis P_write : forall c, P (EvWrite path c).
Hypothesis P_progress : forall t i, P (EvProgress t i).
Hypothesis P_update : forall n, P (EvUpdate n).
Hypothesis P_sleep : forall s, P (EvSleep s).
Hypothesis P_print : forall m, P (EvPrint m).

Lemma stream_chunks_emits chunks : forall w,
  emits P w (stream_chunks path chunks w).
Proof.
  induction chunks as [|c rest IH]; intros w; simpl; [apply emits_refl|].
  destruct c as [|b c']; [apply IH|].
  eapply emits_trans; [|apply IH].
  eapply emits_trans; [|apply emits_emit, P_update].
  exists [EvWrite path (b :: c')]. split; [done|]. constructor; [apply P_write|constructor].
Qed.

Lemma attempt_emits ls w :
  emits P w (attempt server open_fails url filename output_dir expected_size ls w).2.
Proof.
  assert (Hsend : emits P w (send (Request url (headers ls)) w)).
  { exists [EvRequest (Request url (headers ls))]. split; [done|].
    constructor; [apply P_request|constructor]. }
  unfold attempt. destruct (server _ _) as [|r]; [done|].
  destruct (raises_for_status _); [done|].
  destruct (negotiate ls r) as [p|]; [|done].
  assert (Hann : emits P w (announce p (send (Request url (headers ls)) w))).
  { eapply emits_trans; [exact Hsend|]. unfold announce.
    eapply emits_trans; [|apply emits_emit, P_progress].
    destruct (restarted p); [apply emits_emit, P_print|apply emits_refl]. }
  destruct (open_fails _); [done|].
  assert (Hrec : emits P w (receive path p r (announce p (send (Request url (headers ls)) w)))).
  { eapply emits_trans; [exact Hann|]. unfold receive.
    eapply emits_trans; [|apply stream_chunks_emits].
    exists [EvOpen path (plan_mode p)]. split; [done|].
    constructor; [apply P_open|constructor]. }
  destruct (end_exn _); [done|].
  destruct (size_mismatch _ _ _); [done|].
  eapply emits_trans; [exact Hrec|apply emits_emit, P_print].
Qed.

Lemma on_error_emits rc e ls w :
  emits P w (on_error filename output_dir max_retries rc e ls w).2.
Proof.
  assert (H : emits P w (emit (EvSleep 5) (print MsgRetrying
                           (print (MsgError rc max_retries e) w)))).
  { eapply emits_trans; [|apply emits_emit, P_sleep].
    eapply emits_trans; apply emits_emit, P_print. }
  unfold on_error. by destruct (os_path_exists _ _).
Qed.

Lemma retry_loop_emits k : forall ls w,
  emits P w (retry_loop server open_fails url filename output_dir expected_size
                        max_retries k ls w).2.
Proof.
  induction k as [|k IH]; intros ls w; simpl.
  - apply emits_emit, P_print.
  - pose proof (attempt_emits ls w) as Ha.
    destruct (attempt _ _ _ _ _ _ ls w) as [[[e|] ls1] w1]; [|done].
    pose proof (on_error_emits (max_retries - k) e ls1 w1) as He.
    destruct (on_error _ _ _ _ _ _ _) as [ls2 w2].
    eapply emits_trans; [exact Ha|]. eapply emits_trans; [exact He|apply IH].
Qed.

Lemma download_file_emits w :
  emits P w (download_file server open_fails url filename output_dir expected_size
                           max_retries w).2.
Proof.
  unfold download_file, check_local.
  destruct (os_path_exists path w).
  - destruct (eq_expected _ _); [apply emits_emit, P_print|].
    destruct (gt_expected _ _).
    + eapply emits_trans; [|apply retry_loop_emits].
      eapply emits_trans; [apply emits_emit, P_print|].
      exists [EvRemove path]. split; [done|]. constructor; [apply P_remove|constructor].
    + eapply emits_trans; [apply emits_emit, P_print|apply retry_loop_emits].
  - apply retry_loop_emits.
Qed.

End Touches.

Section FilterFrame.

Variable server : nat -> request -> reply.
Variable open_fails : nat -> bool.
Variable filter_keyword : string.
Variable output_dir : string.

Local Abbreviation name_of fi := (default EmptyString (entry_name fi)).
Local Abbreviation url_of fi := (default EmptyString (entry_url fi)).
Local Abbreviation path_of fi := (filepath (name_of fi) output_dir).
Local Abbreviation pass_body' := (pass_body server open_fails filter_keyword output_dir).
Local Abbreviation pass_loop' := (pass_loop server open_fails filter_keyword output_dir).
Local Abbreviation main_loop' := (main_loop server open_fails filter_keyword output_dir).

Lemma filtered_out_counted fi :
  filter_keyword <> EmptyString ->
  Py.contains (Py.lower filter_keyword) (Py.lower (name_of fi)) = false ->
  counted filter_keyword fi = false.
Proof.
  intros Hne Hno. unfold counted, filtered_out. rewrite Hno.
  destruct filter_keyword; [done|]. simpl. apply andb_false_r.
Qed.

Lemma event_within_other urls paths ev :
  match ev with
  | EvRequest _ | EvRemove _ | EvOpen _ _ | EvWrite _ _ => False
  | _ => True
  end -> event_within urls paths ev.
Proof. by destruct ev. Qed.

Lemma pass_body_emits urls paths fi st w :
  (counted filter_keyword fi = true -> url_of fi ∈ urls /\ path_of fi ∈ paths) ->
  emits (event_within urls paths) w (pass_body' fi st w).2.
Proof.
  intros Hin. unfold pass_body.
  destruct (unparseable fi) eqn:Hu; [apply emits_emit; exact I|].
  destruct (filtered_out _ _) eqn:Hf; [apply emits_refl|].
  destruct (already_complete _ _ _ _); [apply emits_refl|].
  destruct Hin as [Hurl Hpath]; [unfold counted; by rewrite Hu, Hf|].
  set (w0 := print _ w).
  assert (Hdl : emits (event_within urls paths) w0
                  (download_file server open_fails (url_of fi) (name_of fi) output_dir
                                 (fi_size fi) default_max_retries w0).2).
  { apply download_file_emits; try done. }
  destruct (download_file _ _ _ _ _ _ _ w0) as [[|] w1]; simpl in *.
  - eapply emits_trans; [|exact Hdl]. apply emits_emit; exact I.
  - eapply emits_trans; [|apply emits_emit; exact I].
    eapply emits_trans; [|exact Hdl]. apply emits_emit; exact I.
Qed.

Lemma pass_loop_emits urls paths l : forall st w,
  (forall fi, fi ∈ l -> counted filter_keyword fi = true ->
              url_of fi ∈ urls /\ path_of fi ∈ paths) ->
  emits (event_within urls paths) w (pass_loop' l st w).2.
Proof.
  induction l as [|fi rest IH]; intros st w Hin; simpl; [apply emits_refl|].
  pose proof (pass_body_emits urls paths fi st w) as Hb.
  destruct (pass_body' fi st w) as [st1 w1]. simpl in Hb.
  eapply emits_trans; [apply Hb|apply IH].
  - intros Hc. apply Hin; [left|done].
  - intros fi' Hfi'. apply Hin. by right.
Qed.

Lemma main_loop_emits urls paths files fuel : forall gp w,
  (forall fi, fi ∈ files -> counted filter_keyword fi = true ->
              url_of fi ∈ urls /\ path_of fi ∈ paths) ->
  emits (event_within urls paths) w (main_loop' files fuel gp w).2.
Proof.
  induction fuel as [|fuel IH]; intros gp w Hin; simpl; [apply emits_refl|].
  assert (Hp : emits (event_within urls paths) w
                 (run_pass server open_fails filter_keyword output_dir files gp w).2).
  { unfold run_pass. eapply emits_trans; [|by apply pass_loop_emits].
    apply emits_emit; exact I. }
  destruct (run_pass _ _ _ _ _ _ _) as [st w1]. simpl in Hp.
  destruct (Nat.eqb _ 0).
  { eapply emits_trans; [exact Hp|apply emits_emit; exact I]. }
  destruct (all_downloaded st).
  { eapply emits_trans; [exact Hp|apply emits_emit; exact I]. }
  eapply emits_trans; [exact Hp|].
  eapply emits_trans; [|by apply IH].
  eapply emits_trans; [|apply emits_emit; exact I].
  apply emits_emit; exact I.
Qed.

(** Leaving an entry that is not counted but has a name and a link out of
    the manifest changes nothing. *)
Lemma pass_loop_frame pre fi post : forall st w,
  counted filter_keyword fi = false ->
  unparseable fi = false ->
  pass_loop' (pre ++ fi :: post) st w = pass_loop' (pre ++ post) st w.
Proof.
  induction pre as [|x pre IH]; intros st w Hc Hu; simpl.
  - assert (Hb : pass_body' fi st w = (st, w)).
    { unfold pass_body. rewrite Hu. unfold counted in Hc. rewrite Hu in Hc.
      simpl in Hc. apply negb_false_iff in Hc. by rewrite Hc. }
    by rewrite Hb.
  - destruct (pass_body' x st w) as [st1 w1]. by apply IH.
Qed.

Lemma main_loop_frame pre fi post fuel : forall gp w,
  counted filter_keyword fi = false ->
  unparseable fi = false ->
  main_loop' (pre ++ fi :: post) fuel gp w = main_loop' (pre ++ post) fuel gp w.
Proof.
  induction fuel as [|fuel IH]; intros gp w Hc Hu; simpl; [done|].
  unfold run_pass. rewrite pass_loop_frame by done.
  destruct (pass_loop' (pre ++ post) _ _) as [st w1].
  destruct (Nat.eqb _ 0); [done|].
  destruct (all_downloaded st); [done|]. by apply IH.
Qed.

End FilterFrame.

(** C9 (filter frame property).  With a non-empty filter keyword, an entry
    whose name does not contain the keyword (case-insensitively) is outside
    the raw filtered set; when its turn comes the loop body leaves the
    loop variables, the file system and the request counter as they are
    (it prints at most the message for an unparseable entry); every request
    of the whole run goes to the URL of an entry of the raw filtered set and
    every file that is removed, opened or written is the file of such an
    entry; and when the entry has a name and a link, the run is the same, in
    its result and in everything it does, as the run over the manifest
    without the entry. *)
Theorem filter_frame server open_fails filter_keyword output_dir pre fi post :
  filter_keyword <> EmptyString ->
  Py.contains (Py.lower filter_keyword)
              (Py.lower (default EmptyString (entry_name fi))) = false ->
  let files := (pre ++ fi :: post)%list in
  let kept := raw_filtered filter_keyword files in
  (fi ∉ kept)
  /\ (forall st w,
       let r := pass_body server open_fails filter_keyword output_dir fi st w in
       r.1 = st /\ fs r.2 = fs w /\ nreq r.2 = nreq w
       /\ log r.2 = (log w ++ if unparseable fi then [EvPrint MsgUnparseable] else [])%list)
  /\ (forall fuel gp w,
       emits (event_within
                (List.map (fun x => default EmptyString (entry_url x)) kept)
                (List.map (fun x => filepath (default EmptyString (entry_name x)) output_dir) kept))
             w
             (main_loop server open_fails filter_keyword output_dir files fuel gp w).2)
  /\ (unparseable fi = false ->
      forall fuel gp w,
        main_loop server open_fails filter_keyword output_dir files fuel gp w
        = main_loop server open_fails filter_keyword output_dir (pre ++ post)%list
                    fuel gp w).
Proof.
  intros Hne Hno files kept.
  pose proof (filtered_out_counted filter_keyword fi Hne Hno) as Hc.
  split.
  { intros Hin. apply list_elem_of_In in Hin. unfold kept, raw_filtered in Hin.
    apply filter_In in Hin. destruct Hin as [_ Hin]. congruence. }
  split.
  { intros st w. cbv zeta. by apply pass_body_uncounted. }
  split.
  { intros fuel gp w. apply main_loop_emits.
    intros x Hx Hcx.
    assert (Hk : In x kept).
    { unfold kept, raw_filtered. apply filter_In. split; [|done].
      by apply list_elem_of_In. }
    split; apply list_elem_of_In.
    - by apply (in_map (fun x => default EmptyString (entry_url x))).
    - by apply (in_map (fun x => filepath (default EmptyString (entry_name x)) output_dir)). }
  intros Hu fuel gp w. by apply main_loop_frame.
Qed.

(** ** Concrete runs *)

Lemma resume_request_and_total_witness :
  let ls := first_state 1 in
  let w0 := print (MsgResume 1 "c.bin") partial_world in
  headers ls !! "Range" = Some "bytes=1-"
  /\ (exists tl,
        log (attempt (const_server resp_206) never_fails "http://host/c.bin" "c.bin"
                     "/out" (Some 3) ls w0).2
        = (log w0 ++ EvRequest (Request "http://host/c.bin" (headers ls)) :: tl)%list)
  /\ (forall r n,
        const_server resp_206 (nreq w0) (Request "http://host/c.bin" (headers ls))
        = Reply r ->
        status_code r = 206 ->
        int_content_length (content_length r) = Some n ->
        exists tl,
          log (attempt (const_server resp_206) never_fails "http://host/c.bin" "c.bin"
                       "/out" (Some 3) ls w0).2
          = (log w0 ++ EvRequest (Request "http://host/c.bin" (headers ls))
                    :: EvProgress (n + 1) 1 :: tl)%list).
Proof.
  intros ls w0.
  apply (resume_request_and_total (const_server resp_206) never_fails
           "http://host/c.bin" "c.bin" "/out" (Some 3) 5%nat partial_world ls w0 [x00]).
  - apply list_elem_of_In. left. reflexivity.
  - reflexivity.
  - reflexivity.
Defined.

Lemma ignored_range_restart_witness :
  let ls := first_state 1 in
  let w0 := print (MsgResume 1 "c.bin") partial_world in
  let a := attempt (const_server resp_200) never_fails "http://host/c.bin" "c.bin"
                   "/out" (Some 3) ls w0 in
  fs w0 !! "/out/c.bin" = Some [x00]
  /\ headers ls !! "Range" = Some "bytes=1-"
  /\ initial_pos a.1.2 = 0
  /\ mode a.1.2 = WB
  /\ (exists tl,
        log a.2
        = (log w0 ++ EvRequest (Request "http://host/c.bin" (headers ls))
                  :: EvPrint MsgRestart :: EvProgress 3 0
                  :: EvOpen "/out/c.bin" WB :: tl)%list)
  /\ fs a.2 !! "/out/c.bin" = Some [x0a; x0b; x0c]
  /\ (EndOk = EndOk -> a.1.1 = None).
Proof.
  intros ls w0 a. split; [reflexivity|].
  apply (ignored_range_restart (const_server resp_200) never_fails
           "http://host/c.bin" "c.bin" "/out" (Some 3) 5%nat partial_world ls w0
           [x00] resp_200 3).
  - apply list_elem_of_In. left. reflexivity.
  - reflexivity.
  - reflexivity.
  - reflexivity.
  - reflexivity.
  - reflexivity.
  - reflexivity.
Defined.

Lemma retry_bound_witness :
  let w0 := print (MsgPreparing "d.bin" None) empty_world in
  let r := download_file down_server never_fails "http://host/d.bin" "d.bin" "/out"
                         None 5 w0 in
  counted no_filter d_bin = true
  /\ already_complete "/out" "d.bin" None empty_world = false
  /\ length (download_attempts down_server never_fails "http://host/d.bin" "d.bin"
                               "/out" None 5 w0) = 5%nat
  /\ r.1 = false
  /\ nreq r.2 = 5%nat
  /\ last (log r.2) = Some (EvPrint (MsgGiveUp "d.bin"))
  /\ pass_loop down_server never_fails no_filter "/out" [d_bin; c_bin] (PassState true 0)
               empty_world
     = pass_loop down_server never_fails no_filter "/out" [c_bin] (PassState false 1)
                 (print (MsgFailedWillRetry "d.bin") r.2).
Proof.
  intros w0 r.
  assert (Hall : Forall (fun s => is_Some (attempt down_server never_fails
                                             "http://host/d.bin" "d.bin" "/out" None
                                             s.1 s.2).1.1)
                        (download_attempts down_server never_fails "http://host/d.bin"
                                           "d.bin" "/out" None 5 w0)).
  { apply Forall_forall. intros [ls w] _.
    unfold attempt, down_server; simpl; by eexists. }
  pose proof (retry_bound down_server never_fails no_filter "/out" d_bin [c_bin]
              (PassState true 0) empty_world 5 eq_refl eq_refl Hall) as H.
  destruct H as (Hlen & Hres & Hn & Hlast & _ & Hpass).
  destruct (Hpass eq_refl) as [Hstep _].
  split; [reflexivity|].
  split; [reflexivity|].
  split; [exact Hlen|].
  split; [exact Hres|].
  split; [exact Hn|].
  split; [exact Hlast|].
  exact Hstep.
Defined.

Lemma failed_attempt_keeps_bytes_witness :
  let ls := first_state 0 in
  let a := attempt (const_server resp_broken) never_fails "http://host/c.bin" "c.bin"
                   "/out" (Some 4) ls empty_world in
  let h := on_error "c.bin" "/out" 5 1 StreamError a.1.2 a.2 in
  a.1.1 = Some StreamError
  /\ fs h.2 = fs a.2
  /\ fs h.2 !! "/out/c.bin" = Some [x0a; x0b]
  /\ initial_pos h.1 = 2
  /\ headers h.1 !! "Range" = Some "bytes=2-"
  /\ mode h.1 = AB.
Proof.
  intros ls a h.
  pose proof (failed_attempt_keeps_bytes (const_server resp_broken) never_fails
                "http://host/c.bin" "c.bin" "/out" (Some 4) 5 ls empty_world
                StreamError a.1.2 a.2 1 eq_refl) as H.
  destruct H as (Hfs & Hstate & _).
  destruct (Hstate [x0a; x0b] eq_refl) as (Hpos & Hrange & Hmode).
  split; [reflexivity|].
  split; [exact Hfs|].
  split; [reflexivity|].
  split; [exact Hpos|].
  split; [exact Hrange|].
  exact Hmode.
Defined.

Lemma pass_loop_termination_witness :
  let w := world_with "/out/c.bin" [x0a; x0b; x0c] in
  Forall (fun fi => already_complete "/out" (default EmptyString (entry_name fi))
                                     (fi_size fi) w = true)
         (raw_filtered no_filter [c_bin])
  /\ pass_failures down_server never_fails no_filter "/out" [c_bin]
                   (print (MsgStartPass 1) w) = []
  /\ nreq (run_pass down_server never_fails no_filter "/out" [c_bin] 1 w).2 = 0%nat
  /\ (main_loop down_server never_fails no_filter "/out" [c_bin] 1 1 w).1
     = Some (AllSucceeded 1)
  /\ (main_loop down_server never_fails "foo" "/out" [c_bin] 1 1 w).1
     = Some NoMatchingFiles.
Proof.
  intros w.
  assert (Hall : Forall (fun fi => already_complete "/out" (default EmptyString (entry_name fi))
                                                    (fi_size fi) w = true)
                        (raw_filtered no_filter [c_bin])).
  { constructor; [reflexivity|constructor]. }
  pose proof (pass_loop_termination down_server never_fails no_filter "/out" [c_bin]
                0 1 w) as H.
  destruct H as (_ & Hloop & Hcomplete & _).
  destruct (Hcomplete Hall) as (Hfail & Hn & _).
  pose proof (pass_loop_termination down_server never_fails "foo" "/out" [c_bin]
                0 1 w) as H'.
  destruct H' as (_ & Hloop' & _).
  split; [exact Hall|].
  split; [exact Hfail|].
  split; [exact Hn|].
  split; [by rewrite Hloop, Hfail|].
  rewrite Hloop'. reflexivity.
Defined.

Lemma complete_file_no_request_witness :
  let w := world_with "/out/c.bin" [x0a; x0b; x0c] in
  let r := download_file (const_server resp_200) never_fails "http://host/c.bin"
                         "c.bin" "/out" (Some 3) 5 w in
  counted no_filter c_bin = true
  /\ fs w !! "/out/c.bin" = Some [x0a; x0b; x0c]
  /\ r = (true, print (MsgSkipComplete "c.bin") w)
  /\ nreq r.2 = 0%nat
  /\ pass_body (const_server resp_200) never_fails no_filter "/out" c_bin (PassState true 0) w
     = (PassState true 1, w).
Proof.
  intros w r.
  pose proof (complete_file_no_request (const_server resp_200) never_fails no_filter "/out"
                c_bin (PassState true 0) w [x0a; x0b; x0c] 3 5
                eq_refl eq_refl eq_refl ltac:(lia) eq_refl) as H.
  destruct H as (Hdl & _ & Hn & _ & Hbody).
  split; [reflexivity|].
  split; [reflexivity|].
  split; [exact Hdl|].
  split; [exact Hn|].
  exact Hbody.
Defined.

(** C6 as stated fails when the known expected size is 0: the local file
    exists and its size, 0, equals the expected size, and still
    [download_file] issues a request, and the pass calls it. *)
Lemma idempotence_fails_at_zero :
  let w := world_with "/out/e.bin" [] in
  let srv := const_server (Response 200 (CLInt 0) [] EndOk) in
  let r := download_file srv never_fails "http://host/e.bin" "e.bin" "/out"
                         (Some 0) 5 w in
  fs w !! "/out/e.bin" = Some []
  /\ size_of [] = 0
  /\ nreq w = 0%nat
  /\ nreq r.2 = 1%nat
  /\ r <> (true, print (MsgSkipComplete "e.bin") w)
  /\ nreq (pass_body srv never_fails no_filter "/out" e_bin (PassState true 0) w).2 = 1%nat.
Proof.
  intros w srv r.
  split; [reflexivity|].
  split; [reflexivity|].
  split; [reflexivity|].
  split; [reflexivity|].
  split; [|reflexivity].
  intros H. apply (f_equal (fun x => nreq x.2)) in H. discriminate H.
Qed.

Lemma oversize_file_is_discarded_witness :
  let w := world_with "/out/c.bin" [x0a; x0b; x0c; x0d] in
  let w1 := os_remove "/out/c.bin" (print (MsgOversize "c.bin") w) in
  fs w !! "/out/c.bin" = Some [x0a; x0b; x0c; x0d]
  /\ check_local "c.bin" "/out" (Some 3) w = inr (0, w1)
  /\ fs w1 !! "/out/c.bin" = None
  /\ hd_error (download_attempts (const_server resp_200) never_fails
                 "http://host/c.bin" "c.bin" "/out" (Some 3) 5 w)
     = Some (LoopState 0 WB ∅, w1)
  /\ (exists tl,
        log (download_file (const_server resp_200) never_fails
               "http://host/c.bin" "c.bin" "/out" (Some 3) 5 w).2
        = (log w ++ EvPrint (MsgOversize "c.bin") :: EvRemove "/out/c.bin"
                 :: EvRequest (Request "http://host/c.bin" ∅) :: tl)%list).
Proof.
  intros w w1.
  pose proof (oversize_file_is_discarded (const_server resp_200) never_fails
                "http://host/c.bin" "c.bin" "/out" (Some 3) 5 w
                [x0a; x0b; x0c; x0d] 3 eq_refl eq_refl ltac:(lia) ltac:(reflexivity)) as H.
  destruct H as (Hck & Hgone & _ & _ & _ & Hfirst).
  destruct (Hfirst 4%nat eq_refl) as [Hhd Hlog].
  split; [reflexivity|].
  split; [exact Hck|].
  split; [exact Hgone|].
  split; [exact Hhd|].
  exact Hlog.
Defined.

(** C7 as stated fails when the known expected size is 0: the local file,
    one byte long, exceeds it, yet it is not removed and the first attempt
    resumes from position 1 with a [Range] header. *)
Lemma oversize_kept_at_zero :
  let w := world_with "/out/e.bin" [x00] in
  let attempts := download_attempts (const_server resp_200) never_fails
                    "http://host/e.bin" "e.bin" "/out" (Some 0) 5 w in
  fs w !! "/out/e.bin" = Some [x00]
  /\ 0 < size_of [x00]
  /\ check_local "e.bin" "/out" (Some 0) w = inr (1, print (MsgResume 1 "e.bin") w)
  /\ (exists ls w0,
        hd_error attempts = Some (ls, w0)
        /\ fs w0 !! "/out/e.bin" = Some [x00]
        /\ initial_pos ls = 1
        /\ mode ls = AB
        /\ headers ls !! "Range" = Some "bytes=1-").
Proof.
  intros w attempts.
  split; [reflexivity|].
  split; [reflexivity|].
  split; [reflexivity|].
  eexists _, _. split; [reflexivity|].
  split; [reflexivity|].
  split; [reflexivity|].
  split; reflexivity.
Qed.

(** Inside the retry loop no attempt looks at the expected size: a
    response longer than the 2 bytes expected leaves 3 bytes on disk, and
    the second attempt resumes from position 3 with the file kept. *)
Example retry_resumes_past_expected_size :
  let attempts := download_attempts (const_server resp_200) never_fails
                    "http://host/c.bin" "c.bin" "/out" (Some 2) 5 empty_world in
  exists ls w0,
    nth_error attempts 1 = Some (ls, w0)
    /\ fs w0 !! "/out/c.bin" = Some [x0a; x0b; x0c]
    /\ initial_pos ls = 3
    /\ mode ls = AB
    /\ headers ls !! "Range" = Some "bytes=3-"
    /\ Forall (fun ev => ev <> EvRemove "/out/c.bin") (log w0).
Proof.
  intros attempts.
  eexists _, _. split; [reflexivity|].
  split; [reflexivity|].
  split; [reflexivity|].
  split; [reflexivity|].
  split; [reflexivity|].
  vm_compute. repeat (constructor; [discriminate|]). constructor.
Qed.

Lemma final_size_verification_witness :
  let ls := first_state 0 in
  let rq := Request "http://host/c.bin" (headers ls) in
  let p := Plan 3 0 WB false in
  let w1 := receive "/out/c.bin" p resp_200 (announce p (send rq empty_world)) in
  const_server resp_200 (nreq empty_world) rq = Reply resp_200
  /\ negotiate ls resp_200 = Some p
  /\ os_path_getsize "/out/c.bin" w1 = 3
  /\ attempt (const_server resp_200) never_fails "http://host/c.bin" "c.bin" "/out"
             (Some 5) ls empty_world
     = (Some SizeMismatch, LoopState 0 WB (headers ls), w1)
  /\ attempt (const_server resp_200) never_fails "http://host/c.bin" "c.bin" "/out"
             (Some 3) ls empty_world
     = (None, LoopState 0 WB (headers ls), print (MsgComplete "c.bin") w1)
  /\ retry_loop (const_server resp_200) never_fails "http://host/c.bin" "c.bin" "/out"
                (Some 3) 5 5 ls empty_world
     = (true, print (MsgComplete "c.bin") w1).
Proof.
  intros ls rq p w1.
  pose proof (final_size_verification (const_server resp_200) never_fails
                "http://host/c.bin" "c.bin" "/out" (Some 5) 5 ls empty_world
                resp_200 p eq_refl eq_refl eq_refl eq_refl eq_refl) as H5.
  destruct H5 as [Hbad _].
  destruct (Hbad 5 eq_refl ltac:(lia) ltac:(discriminate)) as (Hatt5 & _).
  pose proof (final_size_verification (const_server resp_200) never_fails
                "http://host/c.bin" "c.bin" "/out" (Some 3) 5 ls empty_world
                resp_200 p eq_refl eq_refl eq_refl eq_refl eq_refl) as H3.
  destruct H3 as [_ Hgood].
  destruct (Hgood (or_intror (or_intror eq_refl))) as (Hatt3 & Hloop).
  split; [reflexivity|].
  split; [reflexivity|].
  split; [reflexivity|].
  split; [exact Hatt5|].
  split; [exact Hatt3|].
  exact (Hloop 4%nat).
Defined.

(** C8 as stated fails when the known expected size is 0: the stream
    completes, the final size of the file, 3, differs from the expected
    size, and the attempt succeeds all the same. *)
Lemma zero_expected_not_verified :
  let a := attempt (const_server resp_200) never_fails "http://host/e.bin" "e.bin"
                   "/out" (Some 0) (first_state 0) empty_world in
  body_end resp_200 = EndOk
  /\ os_path_getsize "/out/e.bin" a.2 = 3
  /\ 3 <> 0
  /\ a.1.1 = None
  /\ a.1.1 <> Some SizeMismatch
  /\ (download_file (const_server resp_200) never_fails "http://host/e.bin" "e.bin"
                    "/out" (Some 0) 5 empty_world).1 = true.
Proof.
  intros a.
  split; [reflexivity|].
  split; [reflexivity|].
  split; [lia|].
  split; [reflexivity|].
  split; [discriminate|].
  reflexivity.
Qed.

Lemma filter_frame_witness :
  let abcfoo := FileInfo (Some "abcFoo.dat") None (Some "http://host/abcFoo.dat")
                         None None in
  let files := [abc_zip; abcfoo] in
  "foo" <> EmptyString
  /\ Py.contains (Py.lower "foo") (Py.lower "abc.zip") = false
  /\ raw_filtered "foo" files = [abcfoo]
  /\ (forall fuel gp w,
       emits (event_within ["http://host/abcFoo.dat"] ["/out/abcFoo.dat"]) w
             (main_loop (const_server resp_200) never_fails "foo" "/out" files
                        fuel gp w).2)
  /\ (forall fuel gp w,
       main_loop (const_server resp_200) never_fails "foo" "/out" files fuel gp w
       = main_loop (const_server resp_200) never_fails "foo" "/out" [abcfoo]
                   fuel gp w).
Proof.
  intros abcfoo files.
  pose proof (filter_frame (const_server resp_200) never_fails "foo" "/out"
                [] abc_zip [abcfoo] ltac:(discriminate) eq_refl) as H.
  destruct H as (_ & _ & Hemits & Hframe).
  split; [discriminate|].
  split; [reflexivity|].
  split; [reflexivity|].
  split; [exact Hemits|].
  exact (Hframe eq_refl).
Defined.

Lemma zero_expected_size_is_unknown_witness :
  let w := world_with "/out/e.bin" [x00] in
  let srv := const_server resp_200 in
  counted no_filter e_bin = true
  /\ fi_size e_bin = Some 0
  /\ download_file srv never_fails "http://host/e.bin" "e.bin" "/out" (Some 0) 5 w
     = download_file srv never_fails "http://host/e.bin" "e.bin" "/out" None 5 w
  /\ already_complete "/out" "e.bin" (Some 0) w = false
  /\ (nreq w < nreq (pass_body srv never_fails no_filter "/out" e_bin (PassState true 0) w).2)%nat.
Proof.
  intros w srv.
  pose proof (zero_expected_size_is_unknown srv never_fails no_filter "/out" e_bin
                (PassState true 0) w 5 eq_refl eq_refl) as H.
  destruct H as (_ & Hdl & _ & _ & Hac & _ & Hn).
  split; [reflexivity|].
  split; [reflexivity|].
  split; [exact Hdl|].
  split; [exact Hac|].
  exact Hn.
Defined.

(** ** Text: the filter, [get_record_id] and the directory name *)

Lemma str_app_nil (t : string) : EmptyString ++ t = t.
Proof. reflexivity. Qed.

Lemma str_app_cons c (s t : string) : String c s ++ t = String c (s ++ t).
Proof. reflexivity. Qed.

Lemma string_app_nil_r (s : string) : s ++ EmptyString = s.
Proof.
  induction s as [|c s IH]; [done|]. by rewrite str_app_cons, IH.
Qed.

Lemma string_app_assoc (a b c : string) : (a ++ b) ++ c = a ++ (b ++ c).
Proof.
  induction a as [|x a IH]; [done|]. by rewrite !str_app_cons, IH.
Qed.

Lemma string_app_cancel_l (a x y : string) : a ++ x = a ++ y -> x = y.
Proof.
  induction a as [|c a IH]; [done|]. rewrite !str_app_cons.
  intros [= H]. by apply IH.
Qed.

Lemma prefix_spec (n h : string) :
  String.prefix n h = true <-> exists post, h = n ++ post.
Proof.
  revert h. induction n as [|a n IH]; intros h.
  - split; [intros _; by exists h|]. by destruct h.
  - destruct h as [|b h].
    + split; [done|]. by intros [post [=]].
    + simpl. destruct (ascii_dec a b) as [->|Hne].
      * rewrite IH. split; intros [post H]; exists post.
        -- by rewrite str_app_cons, H.
        -- rewrite str_app_cons in H. by inversion H.
      * split; [done|]. intros [post H]. rewrite str_app_cons in H.
        inversion H. by destruct Hne.
Qed.

Lemma contains_unfold (n h : string) :
  Py.contains n h
  = if String.prefix n h then true
    else match h with
         | EmptyString => false
         | String _ h' => Py.contains n h'
         end.
Proof. by destruct h. Qed.

(** [needle in hay] holds exactly when [hay] can be cut around [needle]. *)
Lemma contains_spec (n h : string) :
  Py.contains n h = true <-> exists pre post, h = pre ++ n ++ post.
Proof.
  induction h as [|c h IH]; rewrite contains_unfold.
  - destruct (String.prefix n EmptyString) eqn:Hp.
    + split; [intros _|done]. apply prefix_spec in Hp. destruct Hp as [post H].
      by exists EmptyString, post.
    + split; [done|]. intros (pre & post & H).
      destruct pre as [|? ?]; [|done]. rewrite str_app_nil in H.
      assert (String.prefix n EmptyString = true) by (apply prefix_spec; eauto).
      congruence.
  - destruct (String.prefix n (String c h)) eqn:Hp.
    + split; [intros _|done]. apply prefix_spec in Hp. destruct Hp as [post H].
      by exists EmptyString, post.
    + rewrite IH. split.
      * intros (pre & post & H). exists (String c pre), post.
        by rewrite str_app_cons, H.
      * intros (pre & post & H). destruct pre as [|x pre].
        -- rewrite str_app_nil in H.
           assert (String.prefix n (String c h) = true) by (apply prefix_spec; eauto).
           congruence.
        -- rewrite str_app_cons in H. inversion H. eauto.
Qed.

Lemma lower_ascii_idem c : Py.lower_ascii (Py.lower_ascii c) = Py.lower_ascii c.
Proof. destruct c as [[] [] [] [] [] [] [] []]; reflexivity. Qed.

Lemma lower_idem s : Py.lower (Py.lower s) = Py.lower s.
Proof. induction s as [|c s IH]; simpl; [done|]. by rewrite lower_ascii_idem, IH. Qed.

Lemma lower_empty s : Py.lower s = EmptyString <-> s = EmptyString.
Proof. by destruct s. Qed.

(** X1.  An entry passes the filter exactly when the keyword is empty or
    the lower-cased name can be cut around the lower-cased keyword. *)
Theorem filter_is_substring_test (kw name : string) :
  filtered_out kw name = false
  <-> kw = EmptyString
      \/ exists pre post, Py.lower name = pre ++ Py.lower kw ++ post.
Proof.
  unfold filtered_out. destruct kw as [|k kw]; simpl Py.truthy_str; cbv iota.
  - split; [by left|done].
  - rewrite andb_true_l, negb_false_iff, contains_spec.
    split; [by right|]. by intros [?|?].
Qed.

(** X2.  The filter does not see case: keywords that agree up to case, on
    names that agree up to case, decide alike. *)
Theorem filter_ignores_case (kw kw' name name' : string) :
  Py.lower kw = Py.lower kw' ->
  Py.lower name = Py.lower name' ->
  filtered_out kw name = filtered_out kw' name'.
Proof.
  intros Hk Hn. unfold filtered_out. rewrite Hk, Hn. f_equal.
  destruct kw, kw'; try done.
Qed.

(** *** [get_record_id] *)

Lemma digit_not_space c : is_digit c = true -> is_space c = false.
Proof. destruct c as [[] [] [] [] [] [] [] []]; try reflexivity; discriminate. Qed.

Lemma take_digits_all s : all_digits (take_digits s) = true.
Proof.
  induction s as [|c s IH]; [done|]. simpl.
  destruct (is_digit c) eqn:Hc; [|done]. simpl. by rewrite Hc, IH.
Qed.

(** The digits taken are followed by a character that is no digit, or by
    nothing. *)
Lemma take_digits_split s :
  exists post, s = take_digits s ++ post /\ take_digits post = EmptyString.
Proof.
  induction s as [|c s (post & Hs & Hp)].
  - by exists EmptyString.
  - simpl. destruct (is_digit c) eqn:Hc.
    + exists post. rewrite str_app_cons, <- Hs. done.
    + exists (String c s). split; [done|]. simpl. by rewrite Hc.
Qed.

Lemma match_literal_spec lit : forall s rest,
  match_literal lit s = Some rest <-> s = lit ++ rest.
Proof.
  induction lit as [|a lit IH]; intros s rest.
  - destruct s; simpl; rewrite str_app_nil; split; congruence.
  - destruct s as [|b s]; simpl; rewrite str_app_cons.
    + split; congruence.
    + destruct (Ascii.eqb_spec a b) as [->|Hne].
      * rewrite IH. split; congruence.
      * split; [done|]. congruence.
Qed.

Lemma match_here_sound lit s d :
  match_here lit s = Some d ->
  isdigit d = true
  /\ exists post, s = lit ++ d ++ post /\ take_digits post = EmptyString.
Proof.
  unfold match_here. destruct (match_literal lit s) as [rest|] eqn:Hl; [|done].
  apply match_literal_spec in Hl.
  pose proof (take_digits_all rest) as Hall.
  destruct (take_digits_split rest) as (post & Hrest & Hpost).
  destruct (take_digits rest) as [|c t]; [done|].
  intros [= <-]. split; [exact Hall|].
  exists post. by rewrite Hl, Hrest at 1.
Qed.

Lemma match_here_none lit c post :
  match_here lit (lit ++ String c post) = None -> is_digit c = false.
Proof.
  unfold match_here.
  assert (Hl : match_literal lit (lit ++ String c post) = Some (String c post))
    by by apply match_literal_spec.
  rewrite Hl. simpl. by destruct (is_digit c).
Qed.

Lemma re_search_unfold lit s :
  re_search lit s
  = match match_here lit s with
    | Some d => Some d
    | None => match s with
              | EmptyString => None
              | String _ s' => re_search lit s'
              end
    end.
Proof. by destruct s. Qed.

Lemma re_search_sound lit s d :
  re_search lit s = Some d ->
  isdigit d = true
  /\ exists pre post, s = pre ++ lit ++ d ++ post /\ take_digits post = EmptyString.
Proof.
  induction s as [|c s IH]; rewrite re_search_unfold.
  - destruct (match_here lit EmptyString) as [d'|] eqn:Hm; [|done].
    intros [= <-]. destruct (match_here_sound _ _ _ Hm) as (Hd & post & Hs & Hp).
    split; [done|]. by exists EmptyString, post.
  - destruct (match_here lit (String c s)) as [d'|] eqn:Hm.
    + intros [= <-]. destruct (match_here_sound _ _ _ Hm) as (Hd & post & Hs & Hp).
      split; [done|]. by exists EmptyString, post.
    + intros H. destruct (IH H) as (Hd & pre & post & Hs & Hp).
      split; [done|]. exists (String c pre), post. by rewrite str_app_cons, Hs.
Qed.

Lemma re_search_none lit : forall s pre c post,
  re_search lit s = None ->
  s = pre ++ lit ++ String c post ->
  is_digit c = false.
Proof.
  intros s pre. revert s. induction pre as [|x pre IH]; intros s c post Hn Hs.
  - rewrite str_app_nil in Hs. subst s. rewrite re_search_unfold in Hn.
    destruct (match_here lit _) eqn:Hm; [done|]. by apply match_here_none in Hm.
  - rewrite str_app_cons in Hs. subst s. rewrite re_search_unfold in Hn.
    destruct (match_here lit _); [done|]. by eapply IH.
Qed.

Lemma rstrip_digits s : all_digits s = true -> rstrip s = s.
Proof.
  induction s as [|c s IH]; [done|]. simpl. intros H.
  apply andb_true_iff in H as [Hc Hs]. rewrite IH by done.
  by rewrite (digit_not_space c Hc).
Qed.

Lemma lstrip_digits s : all_digits s = true -> lstrip s = s.
Proof.
  destruct s as [|c s]; [done|]. simpl. intros H.
  apply andb_true_iff in H as [Hc Hs]. by rewrite (digit_not_space c Hc).
Qed.

Lemma strip_digits s : all_digits s = true -> strip s = s.
Proof. intros H. unfold strip. by rewrite lstrip_digits, rstrip_digits. Qed.

Lemma rstrip_idem s : rstrip (rstrip s) = rstrip s.
Proof.
  induction s as [|c s IH]; [done|]. simpl.
  destruct (is_space c && is_empty (rstrip s))%bool eqn:E; [done|].
  simpl. by rewrite IH, E.
Qed.

Lemma lstrip_rstrip_lstrip s : lstrip (rstrip (lstrip s)) = rstrip (lstrip s).
Proof.
  induction s as [|c s IH]; [done|]. simpl.
  destruct (is_space c) eqn:Hc; [done|]. simpl. rewrite Hc. simpl. by rewrite Hc.
Qed.

Lemma strip_idem s : strip (strip s) = strip s.
Proof. unfold strip. by rewrite lstrip_rstrip_lstrip, rstrip_idem. Qed.

Lemma isdigit_all s : isdigit s = true -> all_digits s = true.
Proof. unfold isdigit. by intros [_ ?]%andb_true_iff. Qed.

Lemma get_record_id_isdigit (input_str id : string) :
  get_record_id input_str = Some id -> isdigit id = true.
Proof.
  unfold get_record_id.
  destruct (isdigit (strip input_str)) eqn:Hd; [by intros [= <-]|].
  destruct (re_search record_pattern (strip input_str)) as [d|] eqn:H1.
  { intros [= <-]. by destruct (re_search_sound _ _ _ H1). }
  destruct (re_search records_pattern (strip input_str)) as [d|] eqn:H2; [|done].
  intros [= <-]. by destruct (re_search_sound _ _ _ H2).
Qed.

(** X3.  Whatever [get_record_id] returns is a non-empty string of digits,
    and it is either the whole stripped input or the complete run of digits
    that follows [zenodo.org/record/] or [zenodo.org/records/] somewhere in
    it. *)
Theorem get_record_id_sound (input_str id : string) :
  get_record_id input_str = Some id ->
  isdigit id = true
  /\ (strip input_str = id
      \/ exists pre post,
           (strip input_str = pre ++ record_pattern ++ id ++ post
            \/ strip input_str = pre ++ records_pattern ++ id ++ post)
           /\ take_digits post = EmptyString).
Proof.
  unfold get_record_id.
  destruct (isdigit (strip input_str)) eqn:Hd.
  { intros [= <-]. split; [done|by left]. }
  destruct (re_search record_pattern (strip input_str)) as [d|] eqn:H1.
  { intros [= <-]. destruct (re_search_sound _ _ _ H1) as (Hid & pre & post & Hs & Hp).
    split; [done|]. right. exists pre, post. split; [by left|done]. }
  destruct (re_search records_pattern (strip input_str)) as [d|] eqn:H2; [|done].
  intros [= <-]. destruct (re_search_sound _ _ _ H2) as (Hid & pre & post & Hs & Hp).
  split; [done|]. right. exists pre, post. split; [by right|done].
Qed.

(** X4.  An id that [get_record_id] has returned is a fixed point: given
    back as input, possibly with white space around it from the prompt, it
    is returned unchanged. *)
Theorem get_record_id_round_trip (input_str id : string) :
  get_record_id input_str = Some id ->
  get_record_id id = Some id
  /\ get_record_id (strip input_str) = get_record_id input_str.
Proof.
  intros H. pose proof (get_record_id_isdigit _ _ H) as Hid.
  split.
  - unfold get_record_id. rewrite strip_digits by by apply isdigit_all.
    by rewrite Hid.
  - unfold get_record_id. by rewrite strip_idem.
Qed.

(** X5.  [get_record_id] gives up only on an input that, once stripped, is
    not a string of digits and in which neither [zenodo.org/record/] nor
    [zenodo.org/records/] is ever followed by a digit. *)
Theorem get_record_id_none (input_str : string) :
  get_record_id input_str = None ->
  isdigit (strip input_str) = false
  /\ forall pre c post,
       strip input_str = pre ++ record_pattern ++ String c post
       \/ strip input_str = pre ++ records_pattern ++ String c post ->
       is_digit c = false.
Proof.
  unfold get_record_id.
  destruct (isdigit (strip input_str)); [done|].
  destruct (re_search record_pattern (strip input_str)) eqn:H1; [done|].
  destruct (re_search records_pattern (strip input_str)) eqn:H2; [done|].
  intros _. split; [done|].
  intros pre c post [Hs|Hs].
  - exact (re_search_none record_pattern _ pre c post H1 Hs).
  - exact (re_search_none records_pattern _ pre c post H2 Hs).
Qed.

(** *** The directory and file names *)

Lemma all_chars_app f (a b : string) :
  all_chars f (a ++ b) = (all_chars f a && all_chars f b)%bool.
Proof.
  induction a as [|c a IH]; [done|]. rewrite str_app_cons. simpl.
  by rewrite IH, andb_assoc.
Qed.

Lemma all_chars_impl (f g : ascii -> bool) s :
  (forall c, f c = true -> g c = true) ->
  all_chars f s = true -> all_chars g s = true.
Proof.
  intros Hfg. induction s as [|c s IH]; [done|]. simpl.
  intros [Hc Hs]%andb_true_iff. by rewrite (Hfg c Hc), IH.
Qed.

Lemma keep_chars_all f s : all_chars f (keep_chars f s) = true.
Proof.
  induction s as [|c s IH]; [done|]. simpl.
  destruct (f c) eqn:Hc; [|done]. simpl. by rewrite Hc, IH.
Qed.

Lemma keep_chars_id f s : all_chars f s = true -> keep_chars f s = s.
Proof.
  induction s as [|c s IH]; [done|]. simpl.
  intros [Hc Hs]%andb_true_iff. by rewrite Hc, IH.
Qed.

Lemma lstrip_all f s : all_chars f s = true -> all_chars f (lstrip s) = true.
Proof.
  induction s as [|c s IH]; [done|]. simpl.
  intros H. destruct (is_space c); [|done].
  apply andb_true_iff in H as [_ Hs]. by apply IH.
Qed.

Lemma rstrip_all f s : all_chars f s = true -> all_chars f (rstrip s) = true.
Proof.
  induction s as [|c s IH]; [done|]. simpl.
  intros [Hc Hs]%andb_true_iff.
  destruct (is_space c && is_empty (rstrip s))%bool; [done|].
  simpl. by rewrite Hc, IH.
Qed.

Lemma strip_all f s : all_chars f s = true -> all_chars f (strip s) = true.
Proof. intros H. unfold strip. by apply rstrip_all, lstrip_all. Qed.

Lemma no_char_no_substring f (c : ascii) s :
  f c = false -> all_chars f s = true -> Py.contains (String c EmptyString) s = false.
Proof.
  intros Hc Hs. destruct (Py.contains _ s) eqn:E; [|done].
  apply contains_spec in E as (pre & post & ->).
  rewrite all_chars_app, str_app_cons in Hs. simpl in Hs. rewrite Hc in Hs.
  simpl in Hs. by rewrite andb_false_r in Hs.
Qed.

Lemma all_digits_chars s : all_digits s = all_chars is_digit s.
Proof. induction s as [|c s IH]; [done|]. simpl. by rewrite IH. Qed.

Lemma digit_title_char c : is_digit c = true -> title_char c = true.
Proof. intros H. unfold title_char. rewrite H. by rewrite orb_true_r. Qed.

Lemma safe_title_chars (title : option string) :
  all_chars title_char (safe_title title) = true.
Proof. unfold safe_title. apply strip_all, keep_chars_all. Qed.

(** X6.  The cleaned title is made of letters, digits, spaces, hyphens and
    underscores only, so it holds no path separator; it has no white space
    at either end; and cleaning it again changes nothing. *)
Theorem safe_title_clean (title : option string) :
  all_chars title_char (safe_title title) = true
  /\ Py.contains "/" (safe_title title) = false
  /\ strip (safe_title title) = safe_title title
  /\ safe_title (Some (safe_title title)) = safe_title title.
Proof.
  pose proof (safe_title_chars title) as Hall.
  split; [exact Hall|].
  split; [by apply (no_char_no_substring title_char)|].
  split; [apply strip_idem|].
  unfold safe_title at 1. simpl default.
  rewrite keep_chars_id by exact Hall. apply strip_idem.
Qed.

(** X7.  For a record id that [get_record_id] returned, the name of the
    download directory holds no path separator, whatever the title is, and
    the directory is that name directly under the working directory. *)
Theorem dataset_dir_is_child (input_str id cwd : string) (title : option string) :
  get_record_id input_str = Some id ->
  let name := "Zenodo_" ++ id ++ "_" ++ safe_title title in
  Py.contains "/" name = false
  /\ dataset_dir cwd id title
     = if (String.eqb cwd EmptyString || Py.ends_with_slash cwd)%bool
       then cwd ++ name else cwd ++ "/" ++ name.
Proof.
  intros Hid name. split.
  - apply (no_char_no_substring title_char); [done|].
    pose proof (get_record_id_isdigit _ _ Hid) as Hd.
    unfold name. rewrite !all_chars_app.
    rewrite (safe_title_chars title).
    rewrite (all_chars_impl is_digit title_char id digit_title_char)
      by (rewrite <- all_digits_chars; by apply isdigit_all).
    reflexivity.
  - reflexivity.
Qed.

(** X8.  The local file of an entry: a name that does not start with a
    slash is appended to the output directory (after a slash, unless the
    directory is empty or ends with one), and two such names share a file
    only when they are the same name; a name that starts with a slash is
    used as the path itself, whatever the output directory is. *)
Theorem local_path_of_name (output_dir n1 n2 : string) :
  (String.prefix "/" n1 = false ->
   filepath n1 output_dir
   = output_dir
     ++ (if (String.eqb output_dir EmptyString || Py.ends_with_slash output_dir)%bool
         then EmptyString else "/")
     ++ n1)
  /\ (String.prefix "/" n1 = false ->
      String.prefix "/" n2 = false ->
      filepath n1 output_dir = filepath n2 output_dir -> n1 = n2)
  /\ (String.prefix "/" n1 = true -> filepath n1 output_dir = n1).
Proof.
  unfold filepath, Py.os_path_join. split; [|split].
  - intros ->. by destruct (_ || _)%bool.
  - intros -> ->. destruct (_ || _)%bool; intros H.
    + by apply string_app_cancel_l in H.
    + apply string_app_cancel_l in H. by apply (string_app_cancel_l "/") in H.
  - by intros ->.
Qed.

(** ** What a call of [download_file] leaves on disk *)

Section OneFileOutcome.

Variable server : nat -> request -> reply.
Variable open_fails : nat -> bool.
Variables (url filename output_dir : string).
Variable expected_size : option Z.
Variable max_retries : nat.

Local Abbreviation path := (filepath filename output_dir).
Local Abbreviation attempt' := (attempt server open_fails url filename output_dir expected_size).
Local Abbreviation on_error' := (on_error filename output_dir max_retries).
Local Abbreviation retry_loop' :=
  (retry_loop server open_fails url filename output_dir expected_size max_retries).
Local Abbreviation check_local' := (check_local filename output_dir expected_size).
Local Abbreviation download_file' :=
  (download_file server open_fails url filename output_dir expected_size max_retries).

Lemma attempt_other ls w q :
  path <> q -> fs (attempt' ls w).2 !! q = fs w !! q.
Proof.
  intros Hq. unfold attempt. destruct (server _ _) as [|r]; [done|].
  destruct (raises_for_status _); [done|].
  destruct (negotiate ls r) as [p|]; [|done].
  destruct (open_fails _); [cbn [snd]; by rewrite fs_announce|].
  assert (H : fs (receive path p r (announce p (send (Request url (headers ls)) w))) !! q
              = fs w !! q).
  { rewrite receive_other by done. by rewrite fs_announce. }
  destruct (end_exn _); [done|].
  by destruct (size_mismatch _ _ _).
Qed.

Lemma retry_loop_other k q : forall ls w,
  path <> q -> fs (retry_loop' k ls w).2 !! q = fs w !! q.
Proof.
  induction k as [|k IH]; intros ls w Hq; [done|]. cbn [retry_loop].
  pose proof (attempt_other ls w q Hq) as Ha.
  destruct (attempt' ls w) as [[[e|] ls1] w1]; [|done].
  pose proof (on_error_fs filename output_dir max_retries (max_retries - k) e ls1 w1) as He.
  destruct (on_error' (max_retries - k) e ls1 w1) as [ls2 w2].
  simpl in *. by rewrite IH, He, Ha.
Qed.

Lemma download_file_other w q :
  path <> q -> fs (download_file' w).2 !! q = fs w !! q.
Proof.
  intros Hq. unfold download_file, check_local.
  destruct (os_path_exists path w); [|by apply retry_loop_other].
  destruct (eq_expected _ _); [done|].
  destruct (gt_expected _ _); rewrite retry_loop_other by done; [|done].
  simpl. by apply lookup_delete_ne.
Qed.

Lemma attempt_success ls w ls1 w1 :
  attempt' ls w = (None, ls1, w1) ->
  exists content,
    fs w1 !! path = Some content
    /\ (Py.truthy_int expected_size = true ->
        size_of content = default 0 expected_size).
Proof.
  unfold attempt. destruct (server _ _) as [|r]; [done|].
  destruct (raises_for_status _); [done|].
  destruct (negotiate ls r) as [p|]; [|done].
  destruct (open_fails _); [done|].
  destruct (end_exn _); [done|].
  set (w0 := receive path p r _).
  destruct (size_mismatch path expected_size w0) eqn:Hm; [done|].
  intros [= <- <-].
  pose proof (receive_lookup path p r (announce p (send (Request url (headers ls)) w)))
    as Hl. fold w0 in Hl.
  eexists. split; [exact Hl|].
  intros Ht. unfold size_mismatch in Hm. rewrite Ht in Hm. simpl in Hm.
  apply negb_false_iff, Z.eqb_eq in Hm. by rewrite (getsize_some _ _ _ Hl) in Hm.
Qed.

Lemma retry_loop_success k : forall ls w,
  (retry_loop' k ls w).1 = true ->
  exists content,
    fs (retry_loop' k ls w).2 !! path = Some content
    /\ (Py.truthy_int expected_size = true ->
        size_of content = default 0 expected_size).
Proof.
  induction k as [|k IH]; intros ls w; [done|]. cbn [retry_loop].
  destruct (attempt' ls w) as [[[e|] ls1] w1] eqn:Ha.
  - destruct (on_error' (max_retries - k) e ls1 w1) as [ls2 w2]. apply IH.
  - intros _. by apply attempt_success in Ha.
Qed.

Lemma check_local_skip w w1 :
  check_local' w = inl w1 ->
  exists content,
    fs w1 !! path = Some content
    /\ (Py.truthy_int expected_size = true ->
        size_of content = default 0 expected_size).
Proof.
  unfold check_local. destruct (os_path_exists path w) eqn:Hex; [|done].
  destruct (eq_expected _ _) eqn:Heq; [|by destruct (gt_expected _ _)].
  intros [= <-]. apply exists_inv in Hex as [content Hc]. exists content.
  split; [done|]. intros _. unfold eq_expected in Heq.
  apply andb_true_iff in Heq as [_ Heq]. apply Z.eqb_eq in Heq.
  by rewrite (getsize_some _ _ _ Hc) in Heq.
Qed.

(** X9.  When [download_file] returns [True], the local file exists, and
    when the expected size is known and not zero the file has exactly that
    size. *)
Theorem download_file_true_means_complete w :
  (download_file server open_fails url filename output_dir expected_size
                 max_retries w).1 = true ->
  exists content,
    fs (download_file server open_fails url filename output_dir expected_size
                      max_retries w).2 !! filepath filename output_dir = Some content
    /\ (Py.truthy_int expected_size = true ->
        size_of content = default 0 expected_size).
Proof.
  unfold download_file.
  destruct (check_local' w) as [w1|[pos w1]] eqn:Hck.
  - intros _. by apply (check_local_skip w).
  - apply retry_loop_success.
Qed.

(** X10.  Resuming completes the file.  The local file holds [local], the
    first bytes of the resource; the server answers the ranged request
    with status 206 and the remaining bytes [rest].  Then [download_file]
    returns [True] after this one request and the file holds
    [local ++ rest]. *)
Theorem resume_completes_file w local rest r k :
  fs w !! path = Some local ->
  0 < size_of local ->
  expected_size = None
  \/ (expected_size = Some (size_of (local ++ rest)%list) /\ 0 < size_of rest) ->
  server (nreq w) (Request url {["Range" := range_value (size_of local)]}) = Reply r ->
  status_code r = 206 ->
  content_length r <> CLMalformed ->
  concat (body r) = rest ->
  body_end r = EndOk ->
  open_fails (nreq w) = false ->
  max_retries = S k ->
  let result := download_file server open_fails url filename output_dir
                              expected_size max_retries w in
  result.1 = true
  /\ fs result.2 !! filepath filename output_dir = Some (local ++ rest)%list
  /\ nreq result.2 = S (nreq w).
Proof.
  intros Hc Hpos Hexp Hsrv Hst Hcl Hbody Hend Hopen Hk result. unfold result.
  assert (Hck : check_local' w
                = inr (size_of local, print (MsgResume (size_of local) filename) w)).
  { unfold check_local. rewrite (exists_true _ _ _ Hc), (getsize_some _ _ _ Hc).
    assert (Heq : eq_expected (size_of local) expected_size = false).
    { destruct Hexp as [->|[-> Hr]]; [done|]. unfold eq_expected.
      apply andb_false_iff. right. rewrite size_of_app. simpl. lia. }
    assert (Hgt : gt_expected (size_of local) expected_size = false).
    { destruct Hexp as [->|[-> Hr]]; [done|]. unfold gt_expected.
      apply andb_false_iff. right. rewrite size_of_app. simpl. lia. }
    by rewrite Heq, Hgt. }
  unfold download_file. rewrite Hck.
  replace (retry_loop' max_retries) with (retry_loop' (S k)) by (by rewrite Hk).
  set (w0 := print _ w).
  assert (Hls : first_state (size_of local)
                = LoopState (size_of local) AB
                            {["Range" := range_value (size_of local)]}).
  { unfold first_state. by destruct (size_of local >? 0) eqn:E; [|lia]. }
  rewrite Hls. set (ls := LoopState _ _ _).
  destruct (int_content_length (content_length r)) as [n|] eqn:Hn;
    [|by destruct (content_length r)].
  assert (Hneg : negotiate ls r = Some (Plan (n + size_of local) (size_of local) AB false)).
  { by apply (negotiate_206 ls r n). }
  assert (Hraise : raises_for_status (status_code r) = false) by (by rewrite Hst).
  assert (Hatt := attempt_streamed server open_fails url filename output_dir
                    expected_size ls w0 r
                    (Plan (n + size_of local) (size_of local) AB false)
                    Hsrv Hraise Hneg Hopen).
  rewrite Hend in Hatt. cbv zeta in Hatt. simpl end_exn in Hatt. cbv iota in Hatt.
  set (w1 := receive path _ r _) in Hatt.
  assert (Hfile : fs w1 !! path = Some (local ++ rest)%list).
  { unfold w1. rewrite receive_lookup. simpl plan_mode. cbv iota.
    rewrite fs_announce. simpl. by rewrite Hc, Hbody. }
  assert (Hmis : size_mismatch path expected_size w1 = false).
  { unfold size_mismatch. rewrite (getsize_some _ _ _ Hfile).
    destruct Hexp as [->|[-> _]]; [done|]. simpl.
    rewrite Z.eqb_refl. apply andb_false_r. }
  rewrite Hmis in Hatt. cbn [retry_loop]. rewrite Hatt. simpl.
  split; [done|]. split; [done|].
  unfold w1. by rewrite nreq_receive, nreq_announce.
Qed.

(** X11.  A fresh download lands whole.  With no local file, a reply that
    is no HTTP error and whose stream ends normally makes [download_file]
    return [True] after this one request, sent without [Range] header, and
    the file holds the chunks received, when the expected size is unknown
    or is the size of what arrived. *)
Theorem fresh_download_lands w r k :
  fs w !! path = None ->
  expected_size = None \/ expected_size = Some (size_of (concat (body r))) ->
  server (nreq w) (Request url ∅) = Reply r ->
  raises_for_status (status_code r) = false ->
  content_length r <> CLMalformed ->
  body_end r = EndOk ->
  open_fails (nreq w) = false ->
  max_retries = S k ->
  let result := download_file server open_fails url filename output_dir
                              expected_size max_retries w in
  result.1 = true
  /\ fs result.2 !! filepath filename output_dir = Some (concat (body r))
  /\ nreq result.2 = S (nreq w).
Proof.
  intros Hc Hexp Hsrv Hraise Hcl Hend Hopen Hk result. unfold result.
  unfold download_file, check_local. rewrite (exists_false _ _ Hc).
  replace (retry_loop' max_retries) with (retry_loop' (S k)) by (by rewrite Hk).
  change (first_state 0) with (LoopState 0 WB ∅).
  destruct (int_content_length (content_length r)) as [n|] eqn:Hn;
    [|by destruct (content_length r)].
  assert (Hneg : negotiate (LoopState 0 WB ∅) r = Some (Plan n 0 WB false)).
  { unfold negotiate. by rewrite Hn. }
  assert (Hatt := attempt_streamed server open_fails url filename output_dir
                    expected_size (LoopState 0 WB ∅) w r (Plan n 0 WB false)
                    Hsrv Hraise Hneg Hopen).
  rewrite Hend in Hatt. cbv zeta in Hatt. simpl end_exn in Hatt. cbv iota in Hatt.
  set (w1 := receive path _ r _) in Hatt.
  assert (Hfile : fs w1 !! path = Some (concat (body r))).
  { unfold w1. by rewrite receive_lookup. }
  assert (Hmis : size_mismatch path expected_size w1 = false).
  { unfold size_mismatch. rewrite (getsize_some _ _ _ Hfile).
    destruct Hexp as [->| ->]; [done|]. simpl.
    rewrite Z.eqb_refl. apply andb_false_r. }
  rewrite Hmis in Hatt. cbn [retry_loop]. rewrite Hatt. simpl.
  split; [done|]. split; [done|].
  unfold w1. by rewrite nreq_receive, nreq_announce.
Qed.

End OneFileOutcome.

(** ** What a run leaves on disk and how much it asks of the network *)

Section RunOutcome.

Variable server : nat -> request -> reply.
Variable open_fails : nat -> bool.
Variable filter_keyword : string.
Variable output_dir : string.

Local Abbreviation name_of fi := (default EmptyString (entry_name fi)).
Local Abbreviation url_of fi := (default EmptyString (entry_url fi)).
Local Abbreviation path_of fi := (filepath (name_of fi) output_dir).
Local Abbreviation pass_body' := (pass_body server open_fails filter_keyword output_dir).
Local Abbreviation pass_loop' := (pass_loop server open_fails filter_keyword output_dir).
Local Abbreviation run_pass' := (run_pass server open_fails filter_keyword output_dir).
Local Abbreviation main_loop' := (main_loop server open_fails filter_keyword output_dir).
Local Abbreviation kept l := (raw_filtered filter_keyword l).

Lemma pass_body_cases fi st w :
  (counted filter_keyword fi = false
   /\ (pass_body' fi st w).1 = st
   /\ fs (pass_body' fi st w).2 = fs w
   /\ nreq (pass_body' fi st w).2 = nreq w)
  \/ (counted filter_keyword fi = true
      /\ already_complete output_dir (name_of fi) (fi_size fi) w = true
      /\ pass_body' fi st w
         = (PassState (all_downloaded st) (S (files_to_download_count st)), w))
  \/ (counted filter_keyword fi = true
      /\ already_complete output_dir (name_of fi) (fi_size fi) w = false
      /\ let r := download_file server open_fails (url_of fi) (name_of fi) output_dir
                                (fi_size fi) default_max_retries
                                (print (MsgPreparing (name_of fi) (fi_size fi)) w) in
         all_downloaded (pass_body' fi st w).1 = (all_downloaded st && r.1)%bool
         /\ fs (pass_body' fi st w).2 = fs r.2
         /\ nreq (pass_body' fi st w).2 = nreq r.2).
Proof.
  destruct (counted filter_keyword fi) eqn:Hc.
  - right. destruct (already_complete output_dir (name_of fi) (fi_size fi) w) eqn:Hac.
    + left. by rewrite pass_body_complete.
    + right. split; [done|]. split; [done|]. cbv zeta.
      rewrite (pass_body_counted server open_fails filter_keyword output_dir fi st w Hc Hac).
      cbv zeta. destruct (download_file _ _ _ _ _ _ _ _) as [[|] w1]; simpl.
      * by rewrite andb_true_r.
      * by rewrite andb_false_r.
  - left. split; [done|].
    destruct (pass_body_uncounted server open_fails filter_keyword output_dir fi st w Hc)
      as (H1 & H2 & H3 & _). done.
Qed.

Lemma pass_body_requests fi st w :
  (nreq w <= nreq (pass_body' fi st w).2
   <= nreq w + (if counted filter_keyword fi then 5 else 0))%nat.
Proof.
  destruct (pass_body_cases fi st w) as [(Hc & _ & _ & Hn)|[(Hc & _ & Hb)|(Hc & _ & Hb)]];
    rewrite Hc.
  - lia.
  - rewrite Hb. simpl. lia.
  - cbv zeta in Hb. destruct Hb as (_ & _ & Hn). rewrite Hn.
    destruct (download_file_requests server open_fails (url_of fi) (name_of fi)
                output_dir (fi_size fi) default_max_retries
                (print (MsgPreparing (name_of fi) (fi_size fi)) w)) as [Hr Hl].
    rewrite Hr. simpl nreq.
    pose proof (eq_refl : default_max_retries = 5%nat) as H5. lia.
Qed.

Lemma pass_loop_requests l : forall st w,
  (nreq w <= nreq (pass_loop' l st w).2 <= nreq w + 5 * length (kept l))%nat.
Proof.
  induction l as [|fi rest IH]; intros st w; [simpl; lia|].
  cbn [pass_loop]. pose proof (pass_body_requests fi st w) as Hb.
  destruct (pass_body' fi st w) as [st1 w1]. simpl in Hb.
  specialize (IH st1 w1). unfold raw_filtered in *. cbn [List.filter].
  destruct (counted filter_keyword fi); simpl length; lia.
Qed.

(** X12.  A pass issues at most 5 requests for each entry of the raw
    filtered set, so a run of [fuel] passes issues at most
    [fuel * 5 * n] of them; an empty raw filtered set means no request at
    all. *)
Theorem run_request_bound files fuel : forall gp w,
  (nreq w
   <= nreq (main_loop server open_fails filter_keyword output_dir files fuel gp w).2
   <= nreq w + fuel * (5 * length (raw_filtered filter_keyword files)))%nat.
Proof.
  induction fuel as [|fuel IH]; intros gp w; [simpl; lia|].
  cbn [main_loop]. unfold run_pass.
  pose proof (pass_loop_requests files (PassState true 0) (print (MsgStartPass gp) w))
    as Hp.
  destruct (pass_loop' files _ _) as [st w1]. simpl in Hp.
  destruct (Nat.eqb _ 0); [simpl; lia|].
  destruct (all_downloaded st); [simpl; lia|].
  specialize (IH (S gp) (emit (EvSleep 10) (print (MsgPassFailures gp) w1))).
  simpl nreq in IH. simpl. lia.
Qed.

Lemma pass_body_other fi st w q :
  (counted filter_keyword fi = true -> path_of fi <> q) ->
  fs (pass_body' fi st w).2 !! q = fs w !! q.
Proof.
  intros Hq.
  destruct (pass_body_cases fi st w) as [(_ & _ & Hf & _)|[(_ & _ & Hb)|(Hc & _ & Hb)]].
  - by rewrite Hf.
  - by rewrite Hb.
  - cbv zeta in Hb. destruct Hb as (_ & Hf & _). rewrite Hf.
    rewrite download_file_other by by apply Hq. done.
Qed.

Lemma pass_loop_other l q : forall st w,
  q ∉ List.map (fun fi => path_of fi) (kept l) ->
  fs (pass_loop' l st w).2 !! q = fs w !! q.
Proof.
  induction l as [|fi rest IH]; intros st w Hq; [done|].
  cbn [pass_loop]. pose proof (pass_body_other fi st w q) as Hb.
  destruct (pass_body' fi st w) as [st1 w1]. simpl in Hb.
  unfold raw_filtered in Hq. cbn [List.filter] in Hq.
  destruct (counted filter_keyword fi) eqn:Hc.
  - simpl in Hq. apply not_elem_of_cons in Hq as [Hne Hq].
    rewrite IH by done. apply Hb. intros _. congruence.
  - rewrite IH by done. apply Hb. done.
Qed.

(** X13.  A run never changes a local file other than the files of the
    entries of the raw filtered set. *)
Theorem run_leaves_other_files files fuel q : forall gp w,
  q ∉ List.map (fun fi => filepath (default EmptyString (entry_name fi)) output_dir)
               (raw_filtered filter_keyword files) ->
  fs (main_loop server open_fails filter_keyword output_dir files fuel gp w).2 !! q
  = fs w !! q.
Proof.
  induction fuel as [|fuel IH]; intros gp w Hq; [done|].
  cbn [main_loop]. unfold run_pass.
  pose proof (pass_loop_other files q (PassState true 0) (print (MsgStartPass gp) w) Hq)
    as Hp.
  destruct (pass_loop' files _ _) as [st w1]. simpl in Hp.
  destruct (Nat.eqb _ 0); [done|].
  destruct (all_downloaded st); [done|].
  rewrite IH by done. done.
Qed.

Lemma entry_on_disk_fs fi w w' :
  fs w' !! path_of fi = fs w !! path_of fi ->
  entry_on_disk output_dir fi w -> entry_on_disk output_dir fi w'.
Proof. intros H (content & Hc & Hs). exists content. by rewrite H. Qed.

Lemma already_complete_on_disk fi w :
  already_complete output_dir (name_of fi) (fi_size fi) w = true ->
  entry_on_disk output_dir fi w.
Proof.
  unfold already_complete. intros [Hex Heq]%andb_true_iff.
  apply exists_inv in Hex as [content Hc]. exists content. split; [done|].
  intros _. unfold eq_expected in Heq. apply andb_true_iff in Heq as [_ Heq].
  apply Z.eqb_eq in Heq. by rewrite (getsize_some _ _ _ Hc) in Heq.
Qed.

Lemma on_disk_already_complete fi w :
  Py.truthy_int (fi_size fi) = true ->
  entry_on_disk output_dir fi w ->
  already_complete output_dir (name_of fi) (fi_size fi) w = true.
Proof.
  intros Ht (content & Hc & Hs). unfold already_complete, eq_expected.
  rewrite (exists_true _ _ _ Hc), (getsize_some _ _ _ Hc), Ht, (Hs Ht).
  simpl. apply Z.eqb_refl.
Qed.

Lemma pass_body_on_disk fi st w :
  counted filter_keyword fi = true ->
  all_downloaded (pass_body' fi st w).1 = true ->
  entry_on_disk output_dir fi (pass_body' fi st w).2.
Proof.
  intros Hc Hflag.
  destruct (pass_body_cases fi st w) as [(Hc' & _)|[(_ & Hac & Hb)|(_ & _ & Hb)]].
  - congruence.
  - rewrite Hb. by apply already_complete_on_disk.
  - cbv zeta in Hb. destruct Hb as (Hf & Hfs & _). rewrite Hf in Hflag.
    apply andb_true_iff in Hflag as [_ Hr].
    unfold entry_on_disk. rewrite Hfs. revert Hr. unfold download_file.
    destruct (check_local _ _ _ _) as [w1|[pos w1]] eqn:Hck.
    + intros _. eapply check_local_skip. exact Hck.
    + apply retry_loop_success.
Qed.

Lemma pass_loop_flag_true l st w :
  all_downloaded (pass_loop' l st w).1 = true -> all_downloaded st = true.
Proof.
  intros H. destruct (all_downloaded st) eqn:E; [done|].
  by rewrite pass_loop_flag_stays in H.
Qed.

Lemma pass_loop_on_disk l : forall st w,
  NoDup (List.map (fun fi => path_of fi) (kept l)) ->
  all_downloaded (pass_loop' l st w).1 = true ->
  Forall (fun fi => entry_on_disk output_dir fi (pass_loop' l st w).2) (kept l).
Proof.
  induction l as [|fi rest IH]; intros st w Hnd Hflag; [constructor|].
  cbn [pass_loop] in *.
  pose proof (pass_body_on_disk fi st w) as Hd.
  destruct (pass_body' fi st w) as [st1 w1]. simpl in Hd.
  pose proof (pass_loop_flag_true rest st1 w1 Hflag) as H1.
  unfold raw_filtered in *. cbn [List.filter] in *.
  destruct (counted filter_keyword fi) eqn:Hc.
  - simpl in Hnd. apply NoDup_cons in Hnd as [Hnotin Hnd].
    constructor; [|by apply IH].
    apply (entry_on_disk_fs fi w1); [|by apply Hd].
    by apply pass_loop_other.
  - by apply IH.
Qed.

(** A run that ends in success ends on a pass whose flag is still set;
    the final state differs from the end of that pass by a print. *)
Lemma main_loop_last_pass files fuel n : forall gp w w',
  main_loop' files fuel gp w = (Some (AllSucceeded n), w') ->
  exists gp1 w1,
    all_downloaded (run_pass' files gp1 w1).1 = true
    /\ fs w' = fs (run_pass' files gp1 w1).2
    /\ n = length (kept files)
    /\ kept files <> [].
Proof.
  induction fuel as [|fuel IH]; intros gp w w'; [done|].
  cbn [main_loop].
  pose proof (run_pass_state server open_fails filter_keyword output_dir files gp w)
    as Hst.
  destruct (run_pass' files gp w) as [st w1] eqn:Hrun. simpl in Hst.
  destruct (Nat.eqb _ 0) eqn:E; [done|].
  destruct (all_downloaded st) eqn:Hflag; [|apply IH].
  intros [= <- <-]. exists gp, w. rewrite Hrun. simpl.
  split; [done|]. split; [done|]. split; [by rewrite Hst|].
  rewrite Hst in E. simpl in E. by destruct (kept files).
Qed.

(** X14.  When the run ends with "all files downloaded", and no two entries
    of the raw filtered set share a local file, every one of these
    entries has its file on disk, of exactly the announced size when that
    size is known and not zero. *)
Theorem success_means_files_on_disk files fuel n gp w w' :
  NoDup (List.map (fun fi => filepath (default EmptyString (entry_name fi)) output_dir)
                  (raw_filtered filter_keyword files)) ->
  main_loop server open_fails filter_keyword output_dir files fuel gp w
  = (Some (AllSucceeded n), w') ->
  n = length (raw_filtered filter_keyword files)
  /\ Forall (fun fi => entry_on_disk output_dir fi w')
            (raw_filtered filter_keyword files).
Proof.
  intros Hnd Hrun.
  destruct (main_loop_last_pass files fuel n gp w w' Hrun)
    as (gp1 & w1 & Hflag & Hfs & Hn & _).
  split; [exact Hn|].
  unfold run_pass in Hflag, Hfs.
  pose proof (pass_loop_on_disk files (PassState true 0) (print (MsgStartPass gp1) w1)
                Hnd Hflag) as Hdisk.
  eapply Forall_impl; [exact Hdisk|].
  intros fi Hfi. eapply entry_on_disk_fs; [|exact Hfi]. by rewrite Hfs.
Qed.

(** X15.  Running again after such a success does nothing: when moreover
    every entry of the raw filtered set announces a size that is not zero,
    a further pass started from the final state reports the same success
    at once, with no request and no change on disk. *)
Theorem rerun_after_success_is_idle files fuel n gp w w' fuel' gp' :
  NoDup (List.map (fun fi => filepath (default EmptyString (entry_name fi)) output_dir)
                  (raw_filtered filter_keyword files)) ->
  Forall (fun fi => Py.truthy_int (fi_size fi) = true)
         (raw_filtered filter_keyword files) ->
  main_loop server open_fails filter_keyword output_dir files fuel gp w
  = (Some (AllSucceeded n), w') ->
  (main_loop server open_fails filter_keyword output_dir files (S fuel') gp' w').1
  = Some (AllSucceeded n)
  /\ nreq (main_loop server open_fails filter_keyword output_dir files
                     (S fuel') gp' w').2 = nreq w'
  /\ fs (main_loop server open_fails filter_keyword output_dir files
                   (S fuel') gp' w').2 = fs w'.
Proof.
  intros Hnd Hsizes Hrun.
  destruct (main_loop_last_pass files fuel n gp w w' Hrun)
    as (gp1 & w1 & Hflag & Hfs1 & -> & Hne).
  unfold run_pass in Hflag, Hfs1.
  pose proof (pass_loop_on_disk files (PassState true 0) (print (MsgStartPass gp1) w1)
                Hnd Hflag) as Hdisk.
  assert (Hall : Forall (fun fi => already_complete output_dir (name_of fi) (fi_size fi)
                                     (print (MsgStartPass gp') w') = true)
                        (kept files)).
  { rewrite Forall_forall in Hdisk, Hsizes. apply Forall_forall. intros fi Hfi.
    rewrite (already_complete_fs output_dir _ _ w') by done.
    apply on_disk_already_complete; [by apply Hsizes|].
    eapply entry_on_disk_fs; [|by apply Hdisk]. by rewrite Hfs1. }
  destruct (pass_all_complete server open_fails filter_keyword output_dir files
              (PassState true 0) (print (MsgStartPass gp') w') Hall) as (Hf & Hfs & Hnr).
  pose proof (run_pass_state server open_fails filter_keyword output_dir files gp' w')
    as Hst.
  clear Hflag Hfs1 Hdisk Hall.
  cbn [main_loop]. unfold run_pass in *.
  destruct (pass_loop' files _ _) as [st w2]. simpl in Hst, Hfs, Hnr.
  rewrite Hst. simpl. rewrite Hf. simpl.
  destruct (kept files) as [|fi l]; [done|]. simpl.
  rewrite Hfs, Hnr. done.
Qed.

End RunOutcome.

(** *** The filter prompt *)

Lemma lstrip_spaces s : all_chars is_space s = true -> lstrip s = EmptyString.
Proof.
  induction s as [|c s IH]; [done|]. simpl.
  intros [Hc Hs]%andb_true_iff. rewrite Hc. by apply IH.
Qed.

(** X16.  An answer to the filter prompt made of white space only is no
    filter: every name passes. *)
Theorem blank_filter_keeps_all (answer name : string) :
  all_chars is_space answer = true ->
  filter_of_input answer = EmptyString
  /\ filtered_out (filter_of_input answer) name = false.
Proof.
  intros H. unfold filter_of_input, strip. by rewrite lstrip_spaces.
Qed.

(** *** Partial data across attempts *)

Section PartialData.

Variable server : nat -> request -> reply.
Variable open_fails : nat -> bool.
Variables (url filename output_dir : string).
Variable expected_size : option Z.
Variable max_retries : nat.

Local Abbreviation path := (filepath filename output_dir).
Local Abbreviation attempt' := (attempt server open_fails url filename output_dir expected_size).
Local Abbreviation on_error' := (on_error filename output_dir max_retries).
Local Abbreviation attempt_states' :=
  (attempt_states server open_fails url filename output_dir expected_size max_retries).
Local Abbreviation check_local' := (check_local filename output_dir expected_size).
Local Abbreviation download_attempts' :=
  (download_attempts server open_fails url filename output_dir expected_size max_retries).

Lemma attempt_states_append k : forall ls w,
  (forall c, fs w !! path = Some c -> 0 < size_of c ->
             initial_pos ls = size_of c /\ mode ls = AB) ->
  Forall (fun s => forall c, fs s.2 !! path = Some c -> 0 < size_of c ->
                             initial_pos s.1 = size_of c /\ mode s.1 = AB)
         (attempt_states' k ls w).
Proof.
  induction k as [|k IH]; intros ls w Hinv; [constructor|].
  cbn [attempt_states]. constructor; [exact Hinv|].
  destruct (attempt' ls w) as [[[e|] ls1] w1]; [|constructor].
  pose proof (on_error_state filename output_dir max_retries (max_retries - k) e ls1 w1)
    as Hs.
  pose proof (on_error_fs filename output_dir max_retries (max_retries - k) e ls1 w1)
    as Hf.
  destruct (on_error' (max_retries - k) e ls1 w1) as [ls2 w2]. simpl in Hs, Hf.
  apply IH. intros c Hc _. rewrite Hf in Hc. by rewrite Hs, Hc.
Qed.

Lemma download_attempts_append w :
  Forall (fun s => forall c, fs s.2 !! path = Some c -> 0 < size_of c ->
                             initial_pos s.1 = size_of c /\ mode s.1 = AB)
         (download_attempts' w).
Proof.
  unfold download_attempts, check_local.
  destruct (os_path_exists path w) eqn:Hex.
  - destruct (eq_expected _ _); [constructor|].
    destruct (gt_expected _ _); apply attempt_states_append; intros c Hc Hpos.
    + simpl in Hc. by rewrite lookup_delete_eq in Hc.
    + simpl in Hc. rewrite (getsize_some _ _ _ Hc). unfold first_state. simpl.
      by destruct (size_of c >? 0) eqn:E; [|lia].
  - apply attempt_states_append. intros c Hc. apply exists_false_inv in Hex.
    congruence.
Qed.

(** X17.  Bytes already on disk survive every attempt that is not
    answered with status 200: whatever the outcome of the attempt, the
    file afterwards starts with what it held before. *)
Theorem attempt_keeps_partial_data w ls w0 old :
  (ls, w0) ∈ download_attempts server open_fails url filename output_dir
                               expected_size max_retries w ->
  fs w0 !! filepath filename output_dir = Some old ->
  0 < size_of old ->
  (forall r, server (nreq w0) (Request url (headers ls)) = Reply r ->
             status_code r <> 200) ->
  exists suffix,
    fs (attempt server open_fails url filename output_dir expected_size ls w0).2
       !! filepath filename output_dir
    = Some (old ++ suffix)%list.
Proof.
  intros Hin Hc Hpos Hnot.
  pose proof (download_attempts_append w) as Hall.
  rewrite Forall_forall in Hall. destruct (Hall _ Hin old Hc Hpos) as [Hip Hmode].
  simpl in Hip, Hmode.
  assert (Hsame : forall w', fs w' = fs w0 ->
            exists suffix, fs w' !! path = Some (old ++ suffix)%list).
  { intros w' ->. exists []. by rewrite app_nil_r. }
  unfold attempt. destruct (server _ _) as [|r] eqn:Hsrv; [by apply Hsame|].
  destruct (raises_for_status _); [by apply Hsame|].
  destruct (negotiate ls r) as [p|] eqn:Hneg; [|by apply Hsame].
  destruct (open_fails _); [apply Hsame; cbn [snd]; by rewrite fs_announce|].
  assert (Hp : plan_mode p = AB).
  { unfold negotiate in Hneg. destruct (int_content_length _); [|done].
    destruct (initial_pos ls >? 0); [|by inversion Hneg].
    destruct (status_code r =? 206); [by inversion Hneg|].
    destruct (status_code r =? 200) eqn:E; [|by inversion Hneg].
    apply Z.eqb_eq in E. by destruct (Hnot r eq_refl). }
  assert (Hfile : fs (receive path p r (announce p (send (Request url (headers ls)) w0)))
                     !! path = Some (old ++ concat (body r))%list).
  { rewrite receive_lookup, Hp, fs_announce. simpl. by rewrite Hc. }
  destruct (end_exn _); [by eexists|].
  destruct (size_mismatch _ _ _); by eexists.
Qed.

End PartialData.

(** ** Concrete runs of the further properties *)

Lemma filter_ignores_case_witness :
  Py.lower "FOO" = Py.lower "foo"
  /\ Py.lower "abcFoo.dat" = Py.lower "ABCFOO.DAT"
  /\ filtered_out "FOO" "abcFoo.dat" = filtered_out "foo" "ABCFOO.DAT".
Proof.
  split; [reflexivity|]. split; [reflexivity|].
  apply (filter_ignores_case "FOO" "foo" "abcFoo.dat" "ABCFOO.DAT"); reflexivity.
Defined.

Lemma get_record_id_sound_witness :
  get_record_id "  https://zenodo.org/record/1234567  " = Some "1234567"
  /\ isdigit "1234567" = true.
Proof.
  split; [reflexivity|].
  exact (proj1 (get_record_id_sound "  https://zenodo.org/record/1234567  " "1234567"
                  eq_refl)).
Defined.

Lemma get_record_id_round_trip_witness :
  get_record_id "  https://zenodo.org/records/987/files " = Some "987"
  /\ get_record_id "987" = Some "987".
Proof.
  split; [reflexivity|].
  exact (proj1 (get_record_id_round_trip "  https://zenodo.org/records/987/files "
                  "987" eq_refl)).
Defined.

Lemma get_record_id_none_witness :
  get_record_id "doi:10.5281/zenodo.123" = None
  /\ isdigit (strip "doi:10.5281/zenodo.123") = false.
Proof.
  split; [reflexivity|].
  exact (proj1 (get_record_id_none "doi:10.5281/zenodo.123" eq_refl)).
Defined.

Lemma dataset_dir_is_child_witness :
  get_record_id "https://zenodo.org/records/987" = Some "987"
  /\ Py.contains "/" ("Zenodo_" ++ "987" ++ "_" ++ safe_title (Some "A/B: c")) = false
  /\ dataset_dir "/home/u" "987" (Some "A/B: c") = "/home/u/Zenodo_987_AB c".
Proof.
  split; [reflexivity|].
  exact (dataset_dir_is_child "https://zenodo.org/records/987" "987" "/home/u"
           (Some "A/B: c") eq_refl).
Defined.

Lemma local_path_of_name_witness :
  String.prefix "/" "c.bin" = false
  /\ filepath "c.bin" "/out" = "/out/c.bin"
  /\ String.prefix "/" "/etc/motd" = true
  /\ filepath "/etc/motd" "/out" = "/etc/motd".
Proof.
  destruct (local_path_of_name "/out" "c.bin" "c.bin") as (Hrel & _ & _).
  destruct (local_path_of_name "/out" "/etc/motd" "c.bin") as (_ & _ & Habs).
  split; [reflexivity|]. split; [exact (Hrel eq_refl)|].
  split; [reflexivity|]. exact (Habs eq_refl).
Defined.

Lemma download_file_true_means_complete_witness :
  let r := download_file (const_server resp_200) never_fails "http://host/c.bin"
                         "c.bin" "/out" (Some 3) 5 empty_world in
  r.1 = true
  /\ exists content,
       fs r.2 !! "/out/c.bin" = Some content
       /\ (Py.truthy_int (Some 3) = true -> size_of content = 3).
Proof.
  intros r. split; [reflexivity|].
  exact (download_file_true_means_complete (const_server resp_200) never_fails
           "http://host/c.bin" "c.bin" "/out" (Some 3) 5 empty_world eq_refl).
Defined.

Lemma resume_completes_file_witness :
  let r := download_file (const_server resp_206) never_fails "http://host/c.bin"
                         "c.bin" "/out" (Some 3) 5 partial_world in
  fs partial_world !! "/out/c.bin" = Some [x00]
  /\ r.1 = true
  /\ fs r.2 !! "/out/c.bin" = Some [x00; x01; x02]
  /\ nreq r.2 = 1%nat.
Proof.
  intros r. split; [reflexivity|].
  apply (resume_completes_file (const_server resp_206) never_fails
           "http://host/c.bin" "c.bin" "/out" (Some 3) 5 partial_world
           [x00] [x01; x02] resp_206 4).
  - reflexivity.
  - reflexivity.
  - right. split; reflexivity.
  - reflexivity.
  - reflexivity.
  - discriminate.
  - reflexivity.
  - reflexivity.
  - reflexivity.
  - reflexivity.
Defined.

Lemma fresh_download_lands_witness :
  let r := download_file (const_server resp_200) never_fails "http://host/c.bin"
                         "c.bin" "/out" (Some 3) 5 empty_world in
  fs empty_world !! "/out/c.bin" = None
  /\ r.1 = true
  /\ fs r.2 !! "/out/c.bin" = Some [x0a; x0b; x0c]
  /\ nreq r.2 = 1%nat.
Proof.
  intros r. split; [reflexivity|].
  apply (fresh_download_lands (const_server resp_200) never_fails
           "http://host/c.bin" "c.bin" "/out" (Some 3) 5 empty_world resp_200 4).
  - reflexivity.
  - right. reflexivity.
  - reflexivity.
  - reflexivity.
  - discriminate.
  - reflexivity.
  - reflexivity.
  - reflexivity.
Defined.

Lemma run_leaves_other_files_witness :
  let w := world_with "/out/notes.txt" [x41] in
  fs (main_loop (const_server resp_200) never_fails no_filter "/out" [c_bin]
                2 1 w).2 !! "/out/notes.txt" = Some [x41].
Proof.
  intros w.
  rewrite (run_leaves_other_files (const_server resp_200) never_fails no_filter "/out"
             [c_bin] 2 "/out/notes.txt" 1 w); [reflexivity|].
  intros H. apply list_elem_of_In in H. destruct H as [H|[]]. discriminate H.
Defined.

Lemma success_means_files_on_disk_witness :
  let run := main_loop (const_server resp_200) never_fails no_filter "/out" [c_bin]
                       1 1 empty_world in
  run.1 = Some (AllSucceeded 1)
  /\ Forall (fun fi => entry_on_disk "/out" fi run.2) [c_bin].
Proof.
  intros run. split; [reflexivity|].
  refine (proj2 (success_means_files_on_disk (const_server resp_200) never_fails
                   no_filter "/out" [c_bin] 1 1 1 empty_world run.2 _ _)).
  - apply NoDup_singleton.
  - reflexivity.
Defined.

Lemma rerun_after_success_is_idle_witness :
  let run := main_loop (const_server resp_200) never_fails no_filter "/out" [c_bin]
                       1 1 empty_world in
  let again := main_loop down_server never_fails no_filter "/out" [c_bin]
                         1 1 run.2 in
  run.1 = Some (AllSucceeded 1)
  /\ nreq run.2 = 1%nat
  /\ again.1 = Some (AllSucceeded 1)
  /\ nreq again.2 = 1%nat.
Proof.
  intros run again. split; [reflexivity|]. split; [reflexivity|].
  destruct (rerun_after_success_is_idle (const_server resp_200) never_fails no_filter
              "/out" [c_bin] 1 1 1 empty_world run.2 0 1) as (H1 & H2 & _).
  - apply NoDup_singleton.
  - constructor; [reflexivity|constructor].
  - reflexivity.
  - split; reflexivity.
Defined.

Lemma blank_filter_keeps_all_witness :
  all_chars is_space "   " = true
  /\ filter_of_input "   " = EmptyString
  /\ filtered_out (filter_of_input "   ") "abc.zip" = false.
Proof.
  split; [reflexivity|].
  exact (blank_filter_keeps_all "   " "abc.zip" eq_refl).
Defined.

Lemma attempt_keeps_partial_data_witness :
  let ls := first_state 1 in
  let w0 := print (MsgResume 1 "c.bin") partial_world in
  fs w0 !! "/out/c.bin" = Some [x00]
  /\ exists suffix,
       fs (attempt (const_server resp_broken_206) never_fails "http://host/c.bin"
                   "c.bin" "/out" (Some 5) ls w0).2 !! "/out/c.bin"
       = Some ([x00] ++ suffix)%list.
Proof.
  intros ls w0. split; [reflexivity|].
  apply (attempt_keeps_partial_data (const_server resp_broken_206) never_fails
           "http://host/c.bin" "c.bin" "/out" (Some 5) 5%nat partial_world ls w0 [x00]).
  - apply list_elem_of_In. left. reflexivity.
  - reflexivity.
  - reflexivity.
  - intros r [= <-]. discriminate.
Defined.
